(** * Attendance dashboard: the live-event channel [useWs] and the REST views

    A shallow embedding of the dashboard front end:
    - [JS]        the JavaScript values the code manipulates;
    - [Api]       src/api.js and the requests the views issue;
    - [Students], [Logs], [Dashboard]   the three data views, as the state
                  their promise callbacks update and the tree they render;
    - [UseWs]     the [useWs] hook, as a state-and-exception monad over the
                  sockets it creates, driven by React and by the transport. *)

From Stdlib Require Import Ascii.
From stdpp Require Import gmap strings list pretty.

Set Warnings "-register-all".
Set Default Proof Using "Type".

(** ** JavaScript values *)

Module JS.

(** Numbers are the integers (all the numbers the views read are counts and
    HTTP status codes). An object is its map of own enumerable properties. *)
Inductive value : Type :=
| VUndefined
| VNull
| VBool (b : bool)
| VNum (n : Z)
| VStr (s : string)
| VArr (l : list value)
| VObj (o : gmap string value).

(** ToBoolean. *)
Definition truthy (v : value) : bool :=
  match v with
  | VUndefined | VNull => false
  | VBool b => b
  | VNum n => negb (n =? 0)%Z
  | VStr s => negb (String.eqb s "")
  | VArr _ | VObj _ => true
  end.

(** [a || b]. *)
Definition or_else (a b : value) : value := if truthy a then a else b.

Definition Array_isArray (v : value) : bool :=
  match v with VArr _ => true | _ => false end.

(** The index-keyed properties of an array-like: element [i] under the
    decimal spelling of [i]. *)
Definition index_props (l : list value) : gmap string value :=
  list_to_map (imap (λ i v, (pretty i, v)) l).

Definition chars (s : string) : list value :=
  (λ c, VStr (String c EmptyString)) <$> String.list_ascii_of_string s.

(** The own enumerable string-keyed properties [Object.assign] copies out
    of a source: those of an object, the indices of an array or of a string,
    nothing for the other primitives ([null] and [undefined] are skipped). *)
Definition own_props (v : value) : gmap string value :=
  match v with
  | VObj o => o
  | VArr l => index_props l
  | VStr s => index_props (chars s)
  | VUndefined | VNull | VBool _ | VNum _ => ∅
  end.

(** [Object.assign(target, source)]: every own property of the source is
    assigned on the target. The assignment of the key [__proto__] goes to the
    prototype setter and leaves no field; the own fields of the target are all
    the views read. *)
Definition Object_assign (target : gmap string value) (source : value)
  : gmap string value :=
  delete "__proto__" (own_props source) ∪ target.

(** Member access [v.k]; [None] is the TypeError raised on [null] and
    [undefined]. *)
Definition get (v : value) (k : string) : option value :=
  match v with
  | VUndefined | VNull => None
  | VObj o => Some (default VUndefined (o !! k))
  | VArr l =>
      Some (if String.eqb k "length" then VNum (Z.of_nat (length l))
            else default VUndefined (index_props l !! k))
  | VStr s =>
      Some (if String.eqb k "length" then VNum (Z.of_nat (String.length s))
            else default VUndefined (index_props (chars s) !! k))
  | VBool _ | VNum _ => Some VUndefined
  end.

(** Whether ToPrimitive returns on [v] rather than throws: the conversion
    behind ['' + v], [String(v)] and [new Date(v)]. No field of a parsed value
    is callable, so an object converts, through the inherited [toString],
    exactly when it has no [toString] field of its own; an array converts
    through [join], which skips [null] and [undefined] and converts the other
    elements. *)
Fixpoint coercible (v : value) : bool :=
  match v with
  | VObj o => negb (bool_decide (is_Some (o !! "toString")))
  | VArr l =>
      forallb (λ x, match x with
                    | VUndefined | VNull => true
                    | _ => coercible x
                    end) l
  | VUndefined | VNull | VBool _ | VNum _ | VStr _ => true
  end.

(** What axios hands to the promise callbacks. *)
Record response : Type := { status : Z; data : value }.

(** The rejection value: [message], and [response] when the server
    answered. *)
Record axios_error : Type := { message : value; error_response : option response }.

Inductive settled : Type :=
| Fulfilled (r : response)
| Rejected (e : axios_error).

(** [e?.response?.status] and [e?.response?.data]. *)
Definition resp_status (resp : option response) : value :=
  match resp with Some r => VNum (status r) | None => VUndefined end.

Definition resp_data (resp : option response) : value :=
  match resp with Some r => data r | None => VUndefined end.

(** One argument of a console call: a value, or the error object itself. *)
Inductive log_arg : Type :=
| ArgVal (v : value)
| ArgErr (e : axios_error).

Inductive console_entry : Type :=
| Warn (label : string) (arg : log_arg).

(** The rendered element tree. Style and key attributes are left out (a
    key only matters for the conversion the row functions check); an
    expression child keeps the value and the builtin that formats it. *)
Inductive node : Type :=
| El (tag cls : string) (kids : list node)
| Txt (s : string)
| Val (v : value)        (* {expr} *)
| StringOf (v : value)   (* {String(expr)} *)
| JsonText (v : value)   (* {JSON.stringify(expr, null, 2)} *)
| DateText (v : value).  (* {new Date(expr).toLocaleString()} *)

(** [{cond && <element/>}]: a false condition renders nothing. *)
Definition when (b : bool) (n : node) : list node := if b then [n] else [].

(** A view shows an error when some text of the tree is an [Error:]
    label. *)
Fixpoint error_visible (n : node) : bool :=
  match n with
  | El _ _ kids => existsb error_visible kids
  | Txt s => String.prefix "Error:" s
  | Val _ | StringOf _ | JsonText _ | DateText _ => false
  end.

(** The values named by the expression children of a tree. *)
Fixpoint mentioned (n : node) : list value :=
  match n with
  | El _ _ kids => flat_map mentioned kids
  | Txt _ => []
  | Val v | StringOf v | JsonText v | DateText v => [v]
  end.

End JS.

(** ** src/api.js and the requests of the views *)

Module Api.

(** An axios instance is its configuration. *)
Record config : Type := { baseURL : option string; timeout : Z }.

(** The library defaults of the [axios] singleton: no base URL, and
    [timeout: 0], which axios reads as no timeout. *)
Definition axios : config := {| baseURL := None; timeout := 0 |}.

Definition axios_create (c : config) : config := c.

Definition loopback : string := "http://127.0.0.1:8000".

(** [process.env.REACT_APP_BACKEND || "http://127.0.0.1:8000"]. *)
Definition BACK (env : gmap string string) : string :=
  match env !! "REACT_APP_BACKEND" with
  | Some s => if String.eqb s "" then loopback else s
  | None => loopback
  end.

Definition api (env : gmap string string) : config :=
  axios_create {| baseURL := Some (BACK env); timeout := 10000 |}.

(** A GET request: the instance it is issued on and the path. *)
Record request : Type := { instance : config; path : string }.

Definition instance_get (inst : config) (p : string) : request :=
  {| instance := inst; path := p |}.

(** [url.replace(/^\/+/, '')] *)
Fixpoint strip_leading_slashes (s : string) : string :=
  match s with
  | String "/"%char s' => strip_leading_slashes s'
  | _ => s
  end.

(** [url.replace(/\/?\/$/, '')]: one or two slashes off the end. *)
Fixpoint strip_trailing_slash (s : string) : string :=
  match s with
  | "/" | "//" => ""
  | String c s' => String c (strip_trailing_slash s')
  | "" => ""
  end.

Definition is_letter (c : ascii) : bool :=
  let n := nat_of_ascii c in
  (Nat.leb 65 n && Nat.leb n 90) || (Nat.leb 97 n && Nat.leb n 122).

(** A character of a URL scheme after the first: letter, digit, [+], [-]
    or [.]. *)
Definition is_scheme_char (c : ascii) : bool :=
  let n := nat_of_ascii c in
  is_letter c || (Nat.leb 48 n && Nat.leb n 57)
  || Nat.eqb n 43 || Nat.eqb n 45 || Nat.eqb n 46.

Fixpoint scheme_then_slashes (s : string) : bool :=
  match s with
  | String ":"%char s' => String.prefix "//" s'
  | String c s' => is_scheme_char c && scheme_then_slashes s'
  | "" => false
  end.

(** axios's [isAbsoluteURL]: an optional scheme, then [//]. *)
Definition isAbsoluteURL (url : string) : bool :=
  String.prefix "//" url
  || match url with
     | String c s' => is_letter c && scheme_then_slashes s'
     | "" => false
     end.

(** axios's [combineURLs]: the two parts joined by a single slash. *)
Definition combineURLs (base relative : string) : string :=
  if String.eqb relative "" then base
  else strip_trailing_slash base +:+ "/" +:+ strip_leading_slashes relative.

(** The URL a request goes to, axios's [buildFullPath]: the path joined to
    the base URL when the instance has a non-empty one and the path is not
    absolute, the path alone otherwise. *)
Definition target (r : request) : string :=
  match baseURL (instance r) with
  | Some b =>
      if String.eqb b "" || isAbsoluteURL (path r) then path r
      else combineURLs b (path r)
  | None => path r
  end.

End Api.

Import JS.

(** ** The Students view *)

Module Students.

(** The error object the catch callback stores. *)
Record err_info : Type :=
  { err_message : value; err_status : value; err_data : value }.

(** The three [useState] cells, the [mounted] variable of the effect and
    the console. *)
Record state : Type :=
  { list_ : value;   (* the [list] cell *)
    loading : bool;
    err : option err_info;
    mounted : bool;
    console : list console_entry }.

Definition request : Api.request := Api.instance_get Api.axios "/api/v1/students".

(** First render and effect: the initial cells, [mounted = true]. *)
Definition mount : state :=
  {| list_ := VArr []; loading := true; err := None; mounted := true;
     console := [] |}.

(** [.then(r=> { if(mounted) setList(r.data || []); })] *)
Definition on_then (r : response) (s : state) : state :=
  if mounted s
  then {| list_ := or_else (data r) (VArr []); loading := loading s;
          err := err s; mounted := mounted s; console := console s |}
  else s.

(** [.catch(e=>{ if(mounted){ const resp = e?.response; setErr({...}); } })] *)
Definition on_catch (e : axios_error) (s : state) : state :=
  if mounted s
  then
    let resp := error_response e in
    {| list_ := list_ s; loading := loading s;
       err := Some {| err_message := message e;
                      err_status := resp_status resp;
                      err_data := resp_data resp |};
       mounted := mounted s; console := console s |}
  else s.

(** [.finally(()=> { if(mounted) setLoading(false); })] *)
Definition on_finally (s : state) : state :=
  if mounted s
  then {| list_ := list_ s; loading := false; err := err s;
          mounted := mounted s; console := console s |}
  else s.

(** The promise chain [get(..).then(..).catch(..).finally(..)] once the
    request settles; neither callback throws. *)
Definition settle (o : settled) (s : state) : state :=
  match o with
  | Fulfilled r => on_finally (on_then r s)
  | Rejected e => on_finally (on_catch e s)
  end.

(** The effect's cleanup. *)
Definition unmount (s : state) : state :=
  {| list_ := list_ s; loading := loading s; err := err s; mounted := false;
     console := console s |}.

Definition error_panel (e : err_info) : node :=
  El "div" ""
    [ El "div" "" [El "strong" "" [Txt "Error:"]; Txt " "; Val (err_message e)];
      El "div" "" [El "strong" "" [Txt "HTTP:"]; Txt " ";
                   StringOf (or_else (err_status e) (VStr "n/a"))];
      El "pre" "" [JsonText (err_data e)] ].

(** One row of [list.map(s => ...)]; [None] when building it throws:
    reading a property of a nullish element, or the conversion of
    [key={s.id}] to a string that element creation does on a key that is not
    [undefined]. *)
Definition row (s : value) : option node :=
  id ← get s "id";
  name ← get s "name";
  roll ← get s "roll";
  email ← get s "email";
  if coercible id
  then Some (El "div" "log"
               [El "div" ""
                  [El "div" "" [Val name];
                   El "div" "kv"
                     [Val roll; Txt " · "; Val (or_else email (VStr "—"))]]])
  else None.

(** The returned tree; [None] when rendering throws ([list.map] on a value
    that is not an array, or a row that throws). *)
Definition render (s : state) : option node :=
  match list_ s with
  | VArr l =>
      rows ← mapM row l;
      Some (El "div" ""
              [El "div" "h2" [Txt "Students"];
               El "div" "card"
                 (when (loading s) (El "div" "kv" [Txt "Loading..."])
                  ++ from_option (λ e, [error_panel e]) [] (err s)
                  ++ [El "div" "list"
                        (rows
                         ++ when (Nat.eqb (length l) 0 && negb (loading s)
                                  && negb (bool_decide (is_Some (err s))))
                              (El "div" "kv" [Txt "No students yet"]))])])
  | _ => None
  end.

End Students.

(** ** The Logs view *)

Module Logs.

Record err_info : Type :=
  { err_message : value; err_status : value; err_data : value }.

Record state : Type :=
  { logs : value;
    loading : bool;
    err : option err_info;
    mounted : bool;
    console : list console_entry }.

Definition request : Api.request :=
  Api.instance_get Api.axios "/api/v1/attendance/logs".

Definition mount : state :=
  {| logs := VArr []; loading := true; err := None; mounted := true;
     console := [] |}.

(** [.then(r=>{ if(mounted){ setLogs(Array.isArray(r.data) ? r.data : []); } })] *)
Definition on_then (r : response) (s : state) : state :=
  if mounted s
  then {| logs := if Array_isArray (data r) then data r else VArr [];
          loading := loading s; err := err s; mounted := mounted s;
          console := console s |}
  else s.

(** [.catch(e=>{ if(mounted){ const resp = e?.response; setErr({...}); } })] *)
Definition on_catch (e : axios_error) (s : state) : state :=
  if mounted s
  then
    let resp := error_response e in
    {| logs := logs s; loading := loading s;
       err := Some {| err_message := message e;
                      err_status := resp_status resp;
                      err_data := resp_data resp |};
       mounted := mounted s; console := console s |}
  else s.

(** [.finally(()=> mounted && setLoading(false))] *)
Definition on_finally (s : state) : state :=
  if mounted s
  then {| logs := logs s; loading := false; err := err s;
          mounted := mounted s; console := console s |}
  else s.

Definition settle (o : settled) (s : state) : state :=
  match o with
  | Fulfilled r => on_finally (on_then r s)
  | Rejected e => on_finally (on_catch e s)
  end.

Definition unmount (s : state) : state :=
  {| logs := logs s; loading := loading s; err := err s; mounted := false;
     console := console s |}.

(** What can happen to a mounted Logs view, in any order. *)
Inductive event : Type :=
| Settle (o : settled)
| Then (r : response)
| Catch (e : axios_error)
| Finally
| Unmount.

Definition step (s : state) (ev : event) : state :=
  match ev with
  | Settle o => settle o s
  | Then r => on_then r s
  | Catch e => on_catch e s
  | Finally => on_finally s
  | Unmount => unmount s
  end.

Definition run (evs : list event) : state := foldl step mount evs.

Definition error_panel (e : err_info) : node :=
  El "div" ""
    [ El "div" "" [El "strong" "" [Txt "Error:"]; Txt " "; Val (err_message e)];
      El "div" "" [El "strong" "" [Txt "HTTP:"]; Txt " ";
                   StringOf (or_else (err_status e) (VStr "n/a"))];
      El "pre" "" [JsonText (err_data e)] ].

Definition empty_message : node :=
  El "div" "kv" [Txt "No logs yet — attendance events will appear here."].

(** One row of [logs.map(l => ...)]; [None] when building it throws:
    reading a property of a nullish element, [new Date(l.entry_time)] on a
    value that does not convert to a primitive, or the conversion of
    [key={l.id}] to a string. *)
Definition row (l : value) : option node :=
  id ← get l "id";
  student_name ← get l "student_name";
  student_roll ← get l "student_roll";
  entry_time ← get l "entry_time";
  present ← get l "present";
  if coercible entry_time && coercible id
  then Some (El "div" "log"
               [El "div" ""
                  [El "div" "log-name" [Val (or_else student_name student_roll)];
                   El "div" "log-time" [DateText entry_time]];
                El "div" ""
                  [Txt (if truthy present then "Present" else "Absent")]])
  else None.

Definition render (s : state) : option node :=
  match logs s with
  | VArr l =>
      rows ← mapM row l;
      Some (El "div" ""
              [El "div" "h2" [Txt "Attendance Logs"];
               El "div" "card"
                 ((if loading s then [El "div" "kv" [Txt "Loading logs…"]] else [])
                  ++ from_option (λ e, [error_panel e]) [] (err s)
                  ++ [El "div" "list"
                        (rows
                         ++ when (Nat.eqb (length l) 0 && negb (loading s)
                                  && negb (bool_decide (is_Some (err s))))
                              empty_message)])])
  | _ => None
  end.

End Logs.

(** ** The Dashboard (summary) view *)

Module Dashboard.

(** [stats] is always an object; [err] is [null] or the stored message. *)
Record state : Type :=
  { stats : gmap string value;
    loading : bool;
    err : value;
    mounted : bool;
    console : list console_entry }.

Definition request : Api.request :=
  Api.instance_get Api.axios "/api/v1/dashboard/summary".

Definition defaults : gmap string value :=
  {[ "students" := VNum 0; "todays" := VNum 0 ]}.

Definition mount : state :=
  {| stats := defaults; loading := true; err := VNull; mounted := true;
     console := [] |}.

(** [.then(r=>{ if(mounted && r && r.data){ setStats(Object.assign({students:0,todays:0}, r.data)); } })]
    ([r] is the response object, always truthy). *)
Definition on_then (r : response) (s : state) : state :=
  if mounted s && truthy (data r)
  then {| stats := Object_assign defaults (data r); loading := loading s;
          err := err s; mounted := mounted s; console := console s |}
  else s.

(** [.catch(e=>{ console.warn("Dashboard summary not available:", e.message || e);
                 if(mounted) setErr(e.message || "Not available"); })] *)
Definition on_catch (e : axios_error) (s : state) : state :=
  let logged :=
    console s ++
    [Warn "Dashboard summary not available:"
       (if truthy (message e) then ArgVal (message e) else ArgErr e)] in
  if mounted s
  then {| stats := stats s; loading := loading s;
          err := or_else (message e) (VStr "Not available");
          mounted := mounted s; console := logged |}
  else {| stats := stats s; loading := loading s; err := err s;
          mounted := mounted s; console := logged |}.

(** [.finally(()=> mounted && setLoading(false))] *)
Definition on_finally (s : state) : state :=
  if mounted s
  then {| stats := stats s; loading := false; err := err s;
          mounted := mounted s; console := console s |}
  else s.

Definition settle (o : settled) (s : state) : state :=
  match o with
  | Fulfilled r => on_finally (on_then r s)
  | Rejected e => on_finally (on_catch e s)
  end.

Definition unmount (s : state) : state :=
  {| stats := stats s; loading := loading s; err := err s; mounted := false;
     console := console s |}.

(** [stats.students], [stats.todays]: a missing property reads
    [undefined]. *)
Definition field (s : state) (k : string) : value :=
  default VUndefined (stats s !! k).

Definition render (s : state) : node :=
  El "div" ""
    [El "div" "h1" [Txt "Attendance Dashboard"];
     El "div" "kv" [Txt "Overview"];
     if loading s then El "div" "card" [Txt "Loading…"]
     else if truthy (err s) then El "div" "card" [Txt "Error: "; Val (err s)]
     else El "div" ""
            [El "div" "card"
               [El "div" "" [Val (field s "students")];
                El "div" "kv" [Txt "Total students"]];
             El "div" "card"
               [El "div" "" [Val (field s "todays")];
                El "div" "kv" [Txt "Today present"]]]].

End Dashboard.

(** ** The [useWs] hook *)

Module UseWs.

(** The identity of a function object passed as [onMsg]. *)
Definition callback : Type := nat.

Inductive exn : Type :=
| ConstructError   (* thrown by [new WebSocket(url)] *)
| ParseError       (* thrown by [JSON.parse] *)
| ConsumerError.   (* thrown by the body of [onMsg] *)

Inductive ready_state : Type := CONNECTING | OPEN | CLOSING | CLOSED.

(** One run of the effect body that got past the constructor: the socket
    [ws] it created together with the variables its closures capture
    ([alive], [onMsg]). The index in [subs] is the identity of the socket. *)
Record subscription : Type :=
  { url : string;
    readyState : ready_state;
    alive : bool;
    onMsg : option callback }.

(** What the hook does to the outside. *)
Inductive event : Type :=
| NetOpen (h : nat) (u : string)   (* [new WebSocket(u)] returned socket [h] *)
| CallClose (h : nat)              (* [close()] invoked on socket [h] *)
| NetClose (h : nat)               (* socket [h] starts its closing handshake *)
| Dispatch (h : nat) (cb : callback) (j : value)   (* [onMsg(j)] called by the message handler of socket [h] *)
| ConsoleLog (msg : string)
| ConsoleError (msg : string).

(** React's record of the effect: never run, last run with these
    dependencies, or unmounted. *)
Inductive phase : Type :=
| Fresh
| Mounted (u : option string) (cb : option callback)
| Unmounted.

Record hook : Type :=
  { subs : list subscription;
    wsRef : option nat;        (* [wsRef.current] *)
    cleanup : option nat;      (* the cleanup the last effect run returned, as the subscription whose closure it is *)
    react : phase;
    trace : list event }.

Definition init : hook :=
  {| subs := []; wsRef := None; cleanup := None; react := Fresh; trace := [] |}.

(** *** Statements that cannot throw: state transformers *)

(** A console call, a network action or a consumer call is appended to the
    trace. *)
Definition log (ev : event) (s : hook) : hook :=
  {| subs := subs s; wsRef := wsRef s; cleanup := cleanup s;
     react := react s; trace := trace s ++ [ev] |}.

(** In-place update of subscription [h]. *)
Definition update_sub (h : nat) (f : subscription → subscription) (s : hook)
  : hook :=
  {| subs := alter f h (subs s); wsRef := wsRef s; cleanup := cleanup s;
     react := react s; trace := trace s |}.

Definition set_readyState (r : ready_state) (sub : subscription) : subscription :=
  {| url := url sub; readyState := r; alive := alive sub; onMsg := onMsg sub |}.

Definition set_alive (b : bool) (sub : subscription) : subscription :=
  {| url := url sub; readyState := readyState sub; alive := b;
     onMsg := onMsg sub |}.

(** [wsRef.current = ws] *)
Definition set_wsRef (r : option nat) (s : hook) : hook :=
  {| subs := subs s; wsRef := r; cleanup := cleanup s; react := react s;
     trace := trace s |}.

(** React stores the cleanup and the dependencies of the effect run. *)
Definition commit (c : option nat) (p : phase) (s : hook) : hook :=
  {| subs := subs s; wsRef := wsRef s; cleanup := c; react := p;
     trace := trace s |}.

(** [ws.close()] of the browser: a socket that is closing or closed is
    left alone, another one starts its closing handshake. *)
Definition ws_close (h : nat) (s : hook) : hook :=
  let s := log (CallClose h) s in
  match subs s !! h with
  | Some sub =>
      match readyState sub with
      | CONNECTING | OPEN =>
          log (NetClose h) (update_sub h (set_readyState CLOSING) s)
      | CLOSING | CLOSED => s
      end
  | None => s
  end.

(** The cleanup closure of subscription [h]:
    [()=> { alive = false; if(wsRef.current) wsRef.current.close(); }] *)
Definition cleanup_fn (h : nat) (s : hook) : hook :=
  let s := update_sub h (set_alive false) s in
  match wsRef s with
  | Some w => ws_close w s
  | None => s
  end.

(** React runs the stored cleanup, if the last effect run returned one. *)
Definition run_cleanup (s : hook) : hook :=
  match cleanup s with
  | Some h => cleanup_fn h s
  | None => s
  end.

(** The [open] event: fired on a connecting socket, runs [ws.onopen]. *)
Definition ws_open_event (h : nat) (s : hook) : hook :=
  match subs s !! h with
  | Some sub =>
      match readyState sub with
      | CONNECTING =>
          log (ConsoleLog "ws open") (update_sub h (set_readyState OPEN) s)
      | OPEN | CLOSING | CLOSED => s
      end
  | None => s
  end.

(** An [error] event runs [ws.onerror]. *)
Definition ws_error_event (h : nat) (s : hook) : hook :=
  match subs s !! h with
  | Some _ => log (ConsoleError "ws error") s
  | None => s
  end.

(** The [close] event: the socket is closed and [ws.onclose] runs; fired
    once per socket. *)
Definition ws_close_event (h : nat) (s : hook) : hook :=
  match subs s !! h with
  | Some sub =>
      match readyState sub with
      | CLOSED => s
      | CONNECTING | OPEN | CLOSING =>
          log (ConsoleLog "ws closed") (update_sub h (set_readyState CLOSED) s)
      end
  | None => s
  end.

Definition falsy (u : option string) : bool :=
  match u with
  | None => true
  | Some s => String.eqb s ""
  end.

Definition same_deps (u u' : option string) (cb cb' : option callback) : bool :=
  bool_decide (u = u') && bool_decide (cb = cb').

(** *** Code under try/catch: state and exceptions *)

Inductive completion (A : Type) : Type :=
| Normal (a : A) (s : hook)
| Abrupt (e : exn) (s : hook).
Arguments Normal {A} a s.
Arguments Abrupt {A} e s.

Definition js (A : Type) : Type := hook → completion A.

Definition ret {A} (a : A) : js A := λ s, Normal a s.

Definition bind {A B} (m : js A) (k : A → js B) : js B :=
  λ s, match m s with
       | Normal a s' => k a s'
       | Abrupt e s' => Abrupt e s'
       end.

Definition throw {A} (e : exn) : js A := λ s, Abrupt e s.

(** [try { body } catch(e) { handler }] *)
Definition try_catch {A} (body : js A) (handler : exn → js A) : js A :=
  λ s, match body s with
       | Normal a s' => Normal a s'
       | Abrupt e s' => handler e s'
       end.

(** A statement that cannot throw. *)
Definition modify (f : hook → hook) : js unit := λ s, Normal tt (f s).

Definition read_sub (h : nat) : js (option subscription) :=
  λ s, Normal (subs s !! h) s.

#[global] Instance js_ret : MRet js := @ret.
#[global] Instance js_bind : MBind js := λ A B k m, bind m k.

Definition final {A} (c : completion A) : hook :=
  match c with Normal _ s | Abrupt _ s => s end.

Definition returns {A} (c : completion A) : bool :=
  match c with Normal _ _ => true | Abrupt _ _ => false end.

Section Channel.

(** The builtins and the consumer, as the hook meets them:
    [JSON.parse] returns a value or throws ([None]); [new WebSocket(u)]
    returns or throws; a call of the consumer returns or throws (and
    does not touch the hook). *)
Variable JSON_parse : string → option value.
Variable WebSocket_accepts : string → bool.
Variable consumer_returns : callback → value → bool.

Definition parse (payload : string) : js value :=
  match JSON_parse payload with
  | Some j => ret j
  | None => throw ParseError
  end.

(** [let alive = true; ... ws = new WebSocket(u)]: a fresh socket, still
    connecting, whose closures see [alive = true] and [cb]. *)
Definition new_WebSocket (u : string) (cb : option callback) : js nat :=
  λ s,
    if WebSocket_accepts u
    then
      let h := length (subs s) in
      Normal h
        (log (NetOpen h u)
           {| subs := subs s ++ [{| url := u; readyState := CONNECTING;
                                    alive := true; onMsg := cb |}];
              wsRef := wsRef s; cleanup := cleanup s; react := react s;
              trace := trace s |})
    else Abrupt ConstructError s.

(** [onMsg(j)] *)
Definition call_onMsg (h : nat) (cb : callback) (j : value) : js unit :=
  modify (log (Dispatch h cb j));;
  if consumer_returns cb j then ret tt else throw ConsumerError.

(** [ws.onmessage] of subscription [h], on a frame with payload
    [payload]:
    [try{ const j = JSON.parse(ev.data); if(onMsg && alive) onMsg(j); }
     catch(e){ console.error("ws parse", e); }] *)
Definition onmessage (h : nat) (payload : string) : js unit :=
  try_catch
    (j ← parse payload;
     sub ← read_sub h;
     match sub with
     | Some sub =>
         match onMsg sub with
         | Some cb => if alive sub then call_onMsg h cb j else ret tt
         | None => ret tt
         end
     | None => ret tt
     end)
    (λ _, modify (log (ConsoleError "ws parse"))).

(** The effect body of [useWs(u, cb)]; the result is the cleanup it
    returns, if any:
    [if(!url) return; let alive = true; let ws;
     try{ ws = new WebSocket(url); } catch(e){ console.error("ws err", e); return; }
     ...handlers...; wsRef.current = ws; return ()=> {...};] *)
Definition useWs_effect (u : option string) (cb : option callback)
  : js (option nat) :=
  match u with
  | None => ret None
  | Some u =>
      if String.eqb u "" then ret None
      else
        ws ← try_catch (h ← new_WebSocket u cb; ret (Some h))
                       (λ _, modify (log (ConsoleError "ws err"));; ret None);
        match ws with
        | None => ret None
        | Some h => modify (set_wsRef (Some h));; ret (Some h)
        end
  end.

(** *** React *)

(** The previous cleanup, then the effect, whose cleanup and
    dependencies React keeps. *)
Definition rerun (u : option string) (cb : option callback) : js unit :=
  modify run_cleanup;;
  c ← useWs_effect u cb;
  modify (commit c (Mounted u cb)).

(** A render of the component calling [useWs(u, cb)]: the effect runs on
    the first render and whenever a dependency changed. *)
Definition render (u : option string) (cb : option callback) : js unit :=
  λ s,
    match react s with
    | Unmounted => Normal tt s
    | Fresh => rerun u cb s
    | Mounted u' cb' =>
        if same_deps u u' cb cb' then Normal tt s else rerun u cb s
    end.

Definition unmount : js unit :=
  λ s,
    match react s with
    | Mounted _ _ => Normal tt (commit None Unmounted (run_cleanup s))
    | Fresh | Unmounted => Normal tt s
    end.

(** *** The transport *)

(** A [message] event runs [ws.onmessage]; it is delivered whatever the
    state of the socket, so that nothing below rests on the browser
    holding frames back after [close()]. *)
Definition ws_message_event (h : nat) (payload : string) : js unit :=
  λ s,
    match subs s !! h with
    | Some _ => onmessage h payload s
    | None => Normal tt s
    end.

(** Everything that can happen to a component using the hook. *)
Inductive input : Type :=
| Render (u : option string) (cb : option callback)
| Unmount
| WsOpen (h : nat)
| WsMessage (h : nat) (payload : string)
| WsError (h : nat)
| WsClose (h : nat).

Definition step (i : input) : js unit :=
  match i with
  | Render u cb => render u cb
  | Unmount => unmount
  | WsOpen h => modify (ws_open_event h)
  | WsMessage h payload => ws_message_event h payload
  | WsError h => modify (ws_error_event h)
  | WsClose h => modify (ws_close_event h)
  end.

Fixpoint run (ins : list input) : js unit :=
  match ins with
  | [] => ret tt
  | i :: rest => step i;; run rest
  end.

End Channel.

(** *** Reading traces and states *)

(** All consumer calls, in order, each with the subscription whose message
    handler made it. *)
Definition all_dispatches (tr : list event) : list (nat * callback * value) :=
  omap (λ ev, match ev with
              | Dispatch h cb j => Some (h, cb, j)
              | _ => None
              end) tr.

(** The consumer calls made on behalf of subscription [h]. *)
Definition dispatches (h : nat) (tr : list event) : list (callback * value) :=
  omap (λ d : nat * callback * value,
          if Nat.eqb h d.1.1 then Some (d.1.2, d.2) else None)
       (all_dispatches tr).

Definition is_close_call (h : nat) (ev : event) : bool :=
  match ev with CallClose h' => Nat.eqb h h' | _ => false end.

(** The [close()] calls on socket [h]. *)
Definition close_calls (h : nat) (tr : list event) : nat :=
  length (List.filter (is_close_call h) tr).

(** The sockets created, each with its endpoint. *)
Definition opens (tr : list event) : list (nat * string) :=
  omap (λ ev, match ev with NetOpen h u => Some (h, u) | _ => None end) tr.

Definition is_frame_on (h : nat) (i : input) : bool :=
  match i with WsMessage h' _ => Nat.eqb h h' | _ => false end.

(** The frames delivered on socket [h]. *)
Definition frames_on (h : nat) (ins : list input) : nat :=
  length (List.filter (is_frame_on h) ins).

Definition is_render (i : input) : bool :=
  match i with Render _ _ => true | _ => false end.

(** An event other than a bare [close()] call, which changes nothing by
    itself. *)
Definition effectful (ev : event) : bool :=
  match ev with CallClose _ => false | _ => true end.

(** Subscription [h] exists and its cleanup has run. *)
Definition closed (h : nat) (s : hook) : Prop :=
  ∃ sub, subs s !! h = Some sub ∧ alive sub = false.

(** Subscription [h] exists, its cleanup has not run, and it feeds [cb]. *)
Definition live (h : nat) (cb : callback) (s : hook) : Prop :=
  ∃ sub, subs s !! h = Some sub ∧ alive sub = true ∧ onMsg sub = Some cb.

(** Socket [h] is connecting or open: [close()] still has an effect. *)
Definition closable (h : nat) (s : hook) : bool :=
  match subs s !! h with
  | Some sub =>
      match readyState sub with
      | CONNECTING | OPEN => true
      | CLOSING | CLOSED => false
      end
  | None => false
  end.

(** What the message handler of a live subscription adds to the trace for
    one frame. *)
Definition frame_events (JSON_parse : string → option value)
    (consumer_returns : callback → value → bool)
    (h : nat) (cb : callback) (payload : string) : list event :=
  match JSON_parse payload with
  | Some j =>
      Dispatch h cb j
      :: (if consumer_returns cb j then [] else [ConsoleError "ws parse"])
  | None => [ConsoleError "ws parse"]
  end.

(** The [alive] variable of every subscription, and what every
    subscription was made for. *)
Definition alive_map (s : hook) : list bool := alive <$> subs s.

Definition bindings (s : hook) : list (string * option callback) :=
  (λ sub, (url sub, onMsg sub)) <$> subs s.

(** What [close()] on socket [w] adds to the trace, and what the stored
    cleanup does. *)
Definition close_events (w : nat) (s : hook) : list event :=
  CallClose w :: (if closable w s then [NetClose w] else []).

Definition cleanup_events (s : hook) : list event :=
  match cleanup s, wsRef s with
  | Some _, Some w => close_events w s
  | _, _ => []
  end.

(** The consumer call a step makes: the one of a frame that parses, on a
    subscription that is alive and has a consumer. *)
Definition delivery (JSON_parse : string → option value) (i : input)
    (s : hook) : list (nat * callback * value) :=
  match i with
  | WsMessage h payload =>
      match subs s !! h, JSON_parse payload with
      | Some sub, Some j =>
          match onMsg sub with
          | Some cb => if alive sub then [(h, cb, j)] else []
          | None => []
          end
      | _, _ => []
      end
  | _ => []
  end.

(** The delivery of a step, seen from subscription [h]. *)
Definition delivered_to (JSON_parse : string → option value) (h : nat)
    (i : input) (s : hook) : list (callback * value) :=
  omap (λ d : nat * callback * value,
          if Nat.eqb h d.1.1 then Some (d.1.2, d.2) else None)
       (delivery JSON_parse i s).

(** [s'] differs from [s] in nothing React or the cleanups depend on: same
    references, same [alive] variables and bindings, same [close()] calls
    and sockets opened. *)
Definition undisturbed (s s' : hook) : Prop :=
  wsRef s' = wsRef s ∧ cleanup s' = cleanup s ∧ react s' = react s
  ∧ alive_map s' = alive_map s ∧ bindings s' = bindings s
  ∧ (∀ h, close_calls h (trace s') = close_calls h (trace s))
  ∧ opens (trace s') = opens (trace s).

(** A render with [(u, cb)] runs the effect: first render, or a changed
    dependency. *)
Definition effect_runs (u : option string) (cb : option callback) (s : hook)
  : Prop :=
  match react s with
  | Fresh => True
  | Mounted u' cb' => same_deps u u' cb cb' = false
  | Unmounted => False
  end.

(** How React and the hook fit together in every state the component can
    reach:  an effect run on an endpoint the constructor accepts left a
    cleanup;  only the subscription whose cleanup React holds is alive;
    that subscription is the one [wsRef] points to and was made for the
    current dependencies;  [close()] was called once on every subscription
    whose cleanup ran and never on another;  the sockets opened are
    exactly the subscriptions, in order. *)
Record consistent (WebSocket_accepts : string → bool) (s : hook) : Prop :=
  { current_exists :
      ∀ u cb, react s = Mounted (Some u) cb → String.eqb u "" = false →
        WebSocket_accepts u = true → is_Some (cleanup s);
    alive_is_current :
      ∀ h, alive_map s !! h = Some true → cleanup s = Some h;
    current_is_alive :
      ∀ h, cleanup s = Some h →
        wsRef s = Some h ∧ alive_map s !! h = Some true
        ∧ ∃ u cb, bindings s !! h = Some (u, cb)
                  ∧ react s = Mounted (Some u) cb;
    close_once :
      ∀ h, close_calls h (trace s)
           = match alive_map s !! h with Some false => 1 | _ => 0 end;
    opens_are_subs :
      opens (trace s) = imap (λ h b, (h, b.1)) (bindings s) }.

(** *** A sample environment, for the worked examples *)

Definition sample_frames : gmap string value :=
  {[ "1" := VNum 1; "2" := VNum 2; "true" := VBool true; "null" := VNull;
     "[]" := VArr []; "{}" := VObj ∅ ]}.

(** Parses the payloads of [sample_frames], throws on any other. *)
Definition sample_parse (payload : string) : option value :=
  sample_frames !! payload.

(** Accepts the endpoints with a WebSocket scheme and refuses the others (a
    browser's constructor throws a SyntaxError on a string that is no URL). *)
Definition sample_accepts (u : string) : bool :=
  String.prefix "ws://" u || String.prefix "wss://" u.

(** Consumer 13 throws on every event, the others return. *)
Definition sample_returns (cb : callback) (j : value) : bool :=
  negb (Nat.eqb cb 13).

End UseWs.

(** ** The REST calls of the views *)

Definition rest_calls : list Api.request :=
  [Students.request; Logs.request; Dashboard.request].

(** A request goes through the client of src/api.js: base URL from the
    environment, timeout of 10 seconds (in milliseconds). *)
Definition uses_api_client (env : gmap string string) (r : Api.request) : Prop :=
  Api.baseURL (Api.instance r) = Some (Api.BACK env)
  ∧ Api.timeout (Api.instance r) = 10000%Z.

(** The summary view once its request was rejected with [e]. *)
Definition summary_after_error (e : axios_error) : Dashboard.state :=
  Dashboard.settle (Rejected e) Dashboard.mount.

(** A network failure: a message, no response. *)
Definition network_error : axios_error :=
  {| message := VStr "Network Error"; error_response := None |}.

(** A server failure with a body. *)
Definition server_error : axios_error :=
  {| message := VStr "Request failed with status code 500";
     error_response := Some {| status := 500; data := VStr "boom" |} |}.

(** ** Property names *)

Definition is_digit (c : ascii) : bool :=
  let n := nat_of_ascii c in Nat.leb 48 n && Nat.leb n 57.

(** The name starts with a decimal digit, as every array index does. *)
Definition headed_by_digit (k : string) : bool :=
  match k with
  | String c _ => is_digit c
  | EmptyString => false
  end.

(** ** Reading the lists of the views *)

(** [o.k] on an object: the field, [undefined] when it has none. *)
Definition field (o : gmap string value) (k : string) : value :=
  default VUndefined (o !! k).

(** An element the Students view builds a row for: not [null] or
    [undefined] and, when it is an object, with an [id] that converts to a
    string (the other values have no [id]). *)
Definition student_ok (s : value) : bool :=
  match s with
  | VUndefined | VNull => false
  | VObj o => coercible (field o "id")
  | VBool _ | VNum _ | VStr _ | VArr _ => true
  end.

(** An element the Logs view builds a row for: not [null] or [undefined]
    and, when it is an object, with an [entry_time] and an [id] that convert
    to a primitive. *)
Definition log_ok (l : value) : bool :=
  match l with
  | VUndefined | VNull => false
  | VObj o => coercible (field o "entry_time") && coercible (field o "id")
  | VBool _ | VNum _ | VStr _ | VArr _ => true
  end.

(** An array all of whose elements pass [ok]. *)
Definition array_of (ok : value → bool) (v : value) : bool :=
  match v with
  | VArr l => forallb ok l
  | _ => false
  end.

(** The row of the Students view for the object [o]. *)
Definition student_row (o : gmap string value) : node :=
  El "div" "log"
    [El "div" ""
       [El "div" "" [Val (field o "name")];
        El "div" "kv"
          [Val (field o "roll"); Txt " · ";
           Val (if truthy (field o "email") then field o "email"
                else VStr "—")]]].

(** The row of the Logs view for the object [o]. *)
Definition log_row (o : gmap string value) : node :=
  El "div" "log"
    [El "div" ""
       [El "div" "log-name"
          [Val (if truthy (field o "student_name") then field o "student_name"
                else field o "student_roll")];
        El "div" "log-time" [DateText (field o "entry_time")]];
     El "div" ""
       [Txt (if truthy (field o "present") then "Present" else "Absent")]].

(** The callbacks of the Dashboard, in any order. *)
Inductive dashboard_event : Type :=
| DashSettle (o : settled)
| DashThen (r : response)
| DashCatch (e : axios_error)
| DashFinally
| DashUnmount.

Definition dashboard_step (s : Dashboard.state) (ev : dashboard_event)
  : Dashboard.state :=
  match ev with
  | DashSettle o => Dashboard.settle o s
  | DashThen r => Dashboard.on_then r s
  | DashCatch e => Dashboard.on_catch e s
  | DashFinally => Dashboard.on_finally s
  | DashUnmount => Dashboard.unmount s
  end.

Definition dashboard_run (evs : list dashboard_event) : Dashboard.state :=
  foldl dashboard_step Dashboard.mount evs.

(** An input that comes from the transport, not from React. *)
Definition is_transport (i : UseWs.input) : bool :=
  match i with
  | UseWs.Render _ _ | UseWs.Unmount => false
  | _ => true
  end.

(** [wsRef.current] is the last socket created, if any. *)
Definition tracks_latest (s : UseWs.hook) : Prop :=
  UseWs.wsRef s
  = match length (UseWs.subs s) with 0 => None | S n => Some n end.

(** * Properties *)

(** ** The REST client and the views *)

Section RestFacts.

Lemma BACK_unset (env : gmap string string) :
  Api.BACK (delete "REACT_APP_BACKEND" env) = Api.loopback.
Proof. unfold Api.BACK. by rewrite lookup_delete_eq. Qed.

Lemma BACK_set (env : gmap string string) (u : string) :
  Api.BACK (<["REACT_APP_BACKEND" := u]> env)
  = if String.eqb u "" then Api.loopback else u.
Proof. unfold Api.BACK. by rewrite lookup_insert_eq. Qed.

(** C8, as stated, fails: the roster request is issued on the default
    axios instance, which has no base URL and no timeout. *)
Lemma rest_calls_bypass_api_client :
  ¬ (∀ env r, r ∈ rest_calls → uses_api_client env r).
Proof.
  intros H.
  destruct (H ∅ Students.request) as [Hbase _]; [set_solver |].
  discriminate Hbase.
Qed.

(** C8, amended: the client of src/api.js takes its base URL from
    [REACT_APP_BACKEND], falling back to the loopback address when the
    variable is unset or empty, and has a timeout of 10000 ms; the roster,
    logs and summary requests are issued on the default axios instance, to
    their bare relative path and with no timeout. *)
Theorem api_client_configuration (env : gmap string string) (u : string) :
  Api.baseURL (Api.api env) = Some (Api.BACK env)
  ∧ Api.timeout (Api.api env) = 10000%Z
  ∧ Api.BACK (delete "REACT_APP_BACKEND" env) = "http://127.0.0.1:8000"
  ∧ Api.BACK (<["REACT_APP_BACKEND" := u]> env)
    = (if String.eqb u "" then "http://127.0.0.1:8000" else u)
  ∧ Forall (λ r, Api.instance r = Api.axios
                 ∧ Api.baseURL (Api.instance r) = None
                 ∧ Api.timeout (Api.instance r) = 0%Z
                 ∧ Api.target r = Api.path r) rest_calls.
Proof.
  split_and!; [done | done | apply BACK_unset | apply BACK_set |].
  repeat constructor.
Qed.

(** On the api client the path is joined to the base URL by one slash; an
    absolute URL is left alone. *)
Example api_client_targets :
  Api.target (Api.instance_get (Api.api ∅) "/api/v1/students")
  = "http://127.0.0.1:8000/api/v1/students"
  ∧ Api.target
      (Api.instance_get (Api.api {[ "REACT_APP_BACKEND" := "http://host/" ]})
         "/api/v1/students")
    = "http://host/api/v1/students"
  ∧ Api.target (Api.instance_get (Api.api ∅) "https://other.example/x")
    = "https://other.example/x".
Proof. by vm_compute. Qed.

(** Falsy values have no own property to copy. *)
Lemma own_props_falsy (v : value) : truthy v = false → own_props v = ∅.
Proof.
  destruct v as [| | b | n | s | l | o]; simpl; try done.
  destruct s; [done | discriminate].
Qed.

(** The decimal spelling of a number starts with a digit, so a name that
    does not is no index of an array or of a string. *)
Lemma pretty_N_char_digit (x : N) : is_digit (pretty_N_char x) = true.
Proof. unfold pretty_N_char. by repeat case_match. Qed.

Lemma pretty_N_go_digit (x : N) (s : string) :
  (0 < x)%N ∨ headed_by_digit s = true →
  headed_by_digit (pretty_N_go x s) = true.
Proof.
  revert s. induction (N.lt_wf_0 x) as [x _ IH]; intros s Hx.
  assert (x = 0 ∨ 0 < x)%N as [-> | Hpos] by lia.
  - rewrite pretty_N_go_0. destruct Hx as [Hx | Hx]; [lia | done].
  - rewrite pretty_N_go_step by done. apply IH.
    + by apply N.div_lt.
    + right. simpl. apply pretty_N_char_digit.
Qed.

Lemma pretty_nat_digit (n : nat) : headed_by_digit (pretty n) = true.
Proof.
  unfold pretty, pretty_nat, pretty, pretty_N. case_decide; [done |].
  apply pretty_N_go_digit. left. lia.
Qed.

Lemma index_props_named (l : list value) (k : string) :
  headed_by_digit k = false → index_props l !! k = None.
Proof.
  intros Hk. unfold index_props. apply not_elem_of_list_to_map_1.
  intros Hin. apply list_elem_of_fmap in Hin as ([k' v] & -> & Hin).
  apply elem_of_lookup_imap in Hin as (i & x & [= -> ->] & _).
  simpl in Hk. by rewrite pretty_nat_digit in Hk.
Qed.

(** The own field [k] of a response body, for a name that is no index: the
    field of an object, nothing for any other value. *)
Lemma own_props_named (v : value) (k : string) :
  headed_by_digit k = false →
  own_props v !! k = match v with VObj o => o !! k | _ => None end.
Proof.
  intros Hk. destruct v as [| | b | n | s | l | o]; simpl; try done;
    by apply index_props_named.
Qed.

Lemma dashboard_stats_lookup (r : response) (k : string) :
  headed_by_digit k = false → k ≠ "__proto__" →
  Dashboard.stats (Dashboard.settle (Fulfilled r) Dashboard.mount) !! k
  = match data r with
    | VObj o =>
        match o !! k with
        | Some v => Some v
        | None => Dashboard.defaults !! k
        end
    | _ => Dashboard.defaults !! k
    end.
Proof.
  intros Hk Hp.
  unfold Dashboard.settle, Dashboard.on_then, Dashboard.on_finally. simpl.
  destruct (truthy (data r)) eqn:Ht; simpl.
  - unfold Object_assign.
    rewrite lookup_union, lookup_delete_ne, own_props_named by done.
    destruct (data r) as [| | b | n | s | l | o]; simpl;
      first [by destruct (Dashboard.defaults !! k)
            | by destruct (o !! k), (Dashboard.defaults !! k)].
  - by destruct (data r).
Qed.

(** C9: after a successful summary response the statistics object holds,
    for [students] and for [todays], the field of that name of the response
    body when the body is an object that has one, and 0 when the body has no
    such field or is no object, and the view displays exactly these two
    values. *)
Theorem dashboard_stats_default_zero (r : response) :
  let s := Dashboard.settle (Fulfilled r) Dashboard.mount in
  let students :=
    match data r with
    | VObj o => default (VNum 0) (o !! "students")
    | _ => VNum 0
    end in
  let todays :=
    match data r with
    | VObj o => default (VNum 0) (o !! "todays")
    | _ => VNum 0
    end in
  Dashboard.stats s !! "students" = Some students
  ∧ Dashboard.stats s !! "todays" = Some todays
  ∧ Dashboard.render s
    = El "div" ""
        [El "div" "h1" [Txt "Attendance Dashboard"];
         El "div" "kv" [Txt "Overview"];
         El "div" ""
           [El "div" "card"
              [El "div" "" [Val students];
               El "div" "kv" [Txt "Total students"]];
            El "div" "card"
              [El "div" "" [Val todays];
               El "div" "kv" [Txt "Today present"]]]].
Proof.
  intros s students todays.
  assert (Hs : Dashboard.stats s !! "students" = Some students).
  { unfold s, students. rewrite dashboard_stats_lookup by done.
    destruct (data r) as [| | b | n | t | l | o]; try done.
    by destruct (o !! "students"). }
  assert (Ht : Dashboard.stats s !! "todays" = Some todays).
  { unfold s, todays. rewrite dashboard_stats_lookup by done.
    destruct (data r) as [| | b | n | t | l | o]; try done.
    by destruct (o !! "todays"). }
  split_and!; [done | done |].
  unfold Dashboard.render, Dashboard.field. rewrite Hs, Ht.
  assert (Hl : Dashboard.loading s = false).
  { unfold s, Dashboard.settle, Dashboard.on_then, Dashboard.on_finally.
    simpl. by destruct (truthy (data r)). }
  assert (He : Dashboard.err s = VNull).
  { unfold s, Dashboard.settle, Dashboard.on_then, Dashboard.on_finally.
    simpl. by destruct (truthy (data r)). }
  by rewrite Hl, He.
Qed.

(** The body [{students: 5}]: 5 students, 0 present today, on the page. *)
Lemma dashboard_stats_default_zero_witness :
  let s := Dashboard.settle
             (Fulfilled {| status := 200;
                           data := VObj {[ "students" := VNum 5 ]} |})
             Dashboard.mount in
  Dashboard.stats s !! "students" = Some (VNum 5)
  ∧ Dashboard.stats s !! "todays" = Some (VNum 0)
  ∧ Dashboard.render s
    = El "div" ""
        [El "div" "h1" [Txt "Attendance Dashboard"];
         El "div" "kv" [Txt "Overview"];
         El "div" ""
           [El "div" "card"
              [El "div" "" [Val (VNum 5)];
               El "div" "kv" [Txt "Total students"]];
            El "div" "card"
              [El "div" "" [Val (VNum 0)];
               El "div" "kv" [Txt "Today present"]]]].
Proof.
  exact (dashboard_stats_default_zero
           {| status := 200; data := VObj {[ "students" := VNum 5 ]} |}).
Defined.

(** Bodies that are no plain statistics object: both fields replaced; an
    array; a [__proto__] key carrying another [students]. *)
Example dashboard_bodies :
  let shown body :=
    mentioned (Dashboard.render
                 (Dashboard.settle (Fulfilled {| status := 200; data := body |})
                    Dashboard.mount)) in
  shown (VObj {[ "students" := VNum 40; "todays" := VNum 38 ]})
  = [VNum 40; VNum 38]
  ∧ shown (VArr [VNum 7; VNum 8]) = [VNum 0; VNum 0]
  ∧ shown (VObj {[ "__proto__" := VObj {[ "students" := VNum 9 ]} ]})
    = [VNum 0; VNum 0]
  ∧ shown VNull = [VNum 0; VNum 0].
Proof. by vm_compute. Qed.

(** The stored log list is an array after every callback. *)
Lemma logs_step_array (s : Logs.state) (ev : Logs.event) :
  Array_isArray (Logs.logs s) = true →
  Array_isArray (Logs.logs (Logs.step s ev)) = true.
Proof.
  intros Hs.
  assert (Hthen : ∀ r s0, Array_isArray (Logs.logs s0) = true →
            Array_isArray (Logs.logs (Logs.on_then r s0)) = true).
  { intros r s0 H0. unfold Logs.on_then.
    destruct (Logs.mounted s0); simpl; [| done].
    by destruct (Array_isArray (data r)) eqn:Hd. }
  assert (Hcatch : ∀ e s0, Logs.logs (Logs.on_catch e s0) = Logs.logs s0).
  { intros e s0. unfold Logs.on_catch. by destruct (Logs.mounted s0). }
  assert (Hfin : ∀ s0, Logs.logs (Logs.on_finally s0) = Logs.logs s0).
  { intros s0. unfold Logs.on_finally. by destruct (Logs.mounted s0). }
  destruct ev as [[r | e] | r | e | |]; simpl.
  - rewrite Hfin. by apply Hthen.
  - by rewrite Hfin, Hcatch.
  - by apply Hthen.
  - by rewrite Hcatch.
  - by rewrite Hfin.
  - done.
Qed.

Lemma logs_foldl_array (evs : list Logs.event) (s : Logs.state) :
  Array_isArray (Logs.logs s) = true →
  Array_isArray (Logs.logs (foldl Logs.step s evs)) = true.
Proof.
  revert s. induction evs as [| ev evs IH]; intros s Hs; simpl; [done |].
  apply IH. by apply logs_step_array.
Qed.

(** C10: whatever callbacks run, in whatever order, the stored log list
    is an array; and a successful response whose body is not an array
    leaves the empty list stored and the empty-state message rendered. *)
Theorem logs_list_is_array :
  (∀ evs, Array_isArray (Logs.logs (Logs.run evs)) = true)
  ∧ (∀ r, Array_isArray (data r) = false →
       let s := Logs.settle (Fulfilled r) Logs.mount in
       Logs.logs s = VArr []
       ∧ Logs.render s
         = Some (El "div" ""
                   [El "div" "h2" [Txt "Attendance Logs"];
                    El "div" "card"
                      [El "div" "list" [Logs.empty_message]]])).
Proof.
  split.
  - intros evs. by apply logs_foldl_array.
  - intros r Hr. simpl. unfold Logs.on_then. simpl. by rewrite Hr.
Qed.

Lemma logs_list_is_array_witness :
  Array_isArray (VObj ∅) = false
  ∧ Logs.logs (Logs.settle (Fulfilled {| status := 200; data := VObj ∅ |})
                 Logs.mount) = VArr [].
Proof.
  split; [reflexivity |].
  apply (proj2 logs_list_is_array {| status := 200; data := VObj ∅ |}).
  reflexivity.
Defined.

(** C7, as stated, fails: a rejected summary request puts a visible error
    card on the Dashboard. *)
Lemma summary_error_is_surfaced :
  ¬ (∀ e, error_visible (Dashboard.render (summary_after_error e)) = false).
Proof. intros H. specialize (H network_error). discriminate H. Qed.

(** C7, amended: on a mounted view, a rejected summary request is logged
    with [console.warn] and shown as an error card that carries the message
    alone (or "Not available"), never the HTTP status or the body; a
    rejected roster or logs request is shown as an error panel with the
    message, the HTTP status (or "n/a") and the response body, and is not
    logged. *)
Theorem fetch_error_reporting (e : axios_error) :
  let d := summary_after_error e in
  let s := Students.settle (Rejected e) Students.mount in
  let l := Logs.settle (Rejected e) Logs.mount in
  (Dashboard.console d
   = [Warn "Dashboard summary not available:"
        (if truthy (message e) then ArgVal (message e) else ArgErr e)]
   ∧ Dashboard.render d
     = El "div" ""
         [El "div" "h1" [Txt "Attendance Dashboard"];
          El "div" "kv" [Txt "Overview"];
          El "div" "card"
            [Txt "Error: "; Val (or_else (message e) (VStr "Not available"))]]
   ∧ error_visible (Dashboard.render d) = true
   ∧ mentioned (Dashboard.render d)
     = [or_else (message e) (VStr "Not available")])
  ∧ (Students.console s = []
     ∧ Students.render s
       = Some (El "div" ""
                 [El "div" "h2" [Txt "Students"];
                  El "div" "card"
                    [El "div" ""
                       [El "div" ""
                          [El "strong" "" [Txt "Error:"]; Txt " ";
                           Val (message e)];
                        El "div" ""
                          [El "strong" "" [Txt "HTTP:"]; Txt " ";
                           StringOf (or_else (resp_status (error_response e))
                                             (VStr "n/a"))];
                        El "pre" "" [JsonText (resp_data (error_response e))]];
                     El "div" "list" []]]))
  ∧ (Logs.console l = []
     ∧ Logs.render l
       = Some (El "div" ""
                 [El "div" "h2" [Txt "Attendance Logs"];
                  El "div" "card"
                    [El "div" ""
                       [El "div" ""
                          [El "strong" "" [Txt "Error:"]; Txt " ";
                           Val (message e)];
                        El "div" ""
                          [El "strong" "" [Txt "HTTP:"]; Txt " ";
                           StringOf (or_else (resp_status (error_response e))
                                             (VStr "n/a"))];
                        El "pre" "" [JsonText (resp_data (error_response e))]];
                     El "div" "list" []]])).
Proof.
  intros d s l.
  assert (Hmsg : truthy (or_else (message e) (VStr "Not available")) = true).
  { unfold or_else. by destruct (truthy (message e)) eqn:Hm. }
  assert (Hd : Dashboard.render d
     = El "div" ""
         [El "div" "h1" [Txt "Attendance Dashboard"];
          El "div" "kv" [Txt "Overview"];
          El "div" "card"
            [Txt "Error: "; Val (or_else (message e) (VStr "Not available"))]]).
  { unfold d, summary_after_error, Dashboard.render. simpl. by rewrite Hmsg. }
  split_and!; try done; by rewrite Hd.
Qed.

(** A server failure on the roster: message, status 500 and body are all on
    the page. *)
Example students_server_error :
  mentioned <$> Students.render (Students.settle (Rejected server_error)
                                   Students.mount)
  = Some [VStr "Request failed with status code 500"; VNum 500; VStr "boom"].
Proof. reflexivity. Qed.

End RestFacts.

(** ** The live-event channel *)

Import UseWs.

Section ChannelFacts.

Variable JSON_parse : string → option value.
Variable WebSocket_accepts : string → bool.
Variable consumer_returns : callback → value → bool.

Local Abbreviation useWs_effect := (useWs_effect WebSocket_accepts).
Local Abbreviation onmessage := (onmessage JSON_parse consumer_returns).
Local Abbreviation step := (step JSON_parse WebSocket_accepts consumer_returns).
Local Abbreviation run := (run JSON_parse WebSocket_accepts consumer_returns).
Local Abbreviation rerun := (rerun WebSocket_accepts).
Local Abbreviation consistent := (consistent WebSocket_accepts).
Local Abbreviation delivered_to := (delivered_to JSON_parse).

(** *** The effect body, case by case *)

Lemma effect_falsy u cb s :
  falsy u = true → useWs_effect u cb s = Normal None s.
Proof.
  intros Hu. unfold UseWs.useWs_effect. destruct u as [u |]; [| done].
  simpl in Hu. by rewrite Hu.
Qed.

Lemma effect_refused u cb s :
  String.eqb u "" = false → WebSocket_accepts u = false →
  useWs_effect (Some u) cb s = Normal None (log (ConsoleError "ws err") s).
Proof.
  intros Hu Ha. unfold UseWs.useWs_effect. rewrite Hu.
  unfold mbind, js_bind, bind, try_catch, new_WebSocket. by rewrite Ha.
Qed.

(** The state a successful [new WebSocket(u)] and [wsRef.current = ws]
    leave. *)
Lemma effect_accepted u cb s :
  String.eqb u "" = false → WebSocket_accepts u = true →
  useWs_effect (Some u) cb s
  = Normal (Some (length (subs s)))
      {| subs := subs s ++ [{| url := u; readyState := CONNECTING;
                               alive := true; onMsg := cb |}];
         wsRef := Some (length (subs s));
         cleanup := cleanup s; react := react s;
         trace := trace s ++ [NetOpen (length (subs s)) u] |}.
Proof.
  intros Hu Ha. unfold UseWs.useWs_effect. rewrite Hu.
  unfold mbind, js_bind, bind, try_catch, new_WebSocket. by rewrite Ha.
Qed.

(** *** The message handler, case by case *)

Lemma onmessage_malformed h p s :
  JSON_parse p = None →
  onmessage h p s = Normal tt (log (ConsoleError "ws parse") s).
Proof.
  intros Hp. unfold UseWs.onmessage, try_catch, mbind, js_bind, bind, parse.
  by rewrite Hp.
Qed.

Lemma onmessage_live h p j sub cb s :
  JSON_parse p = Some j → subs s !! h = Some sub →
  alive sub = true → onMsg sub = Some cb →
  onmessage h p s
  = Normal tt (if consumer_returns cb j
               then log (Dispatch h cb j) s
               else log (ConsoleError "ws parse") (log (Dispatch h cb j) s)).
Proof.
  intros Hp Hs Ha Hc.
  unfold UseWs.onmessage, try_catch, mbind, js_bind, bind, parse, read_sub.
  rewrite Hp. simpl. rewrite Hs, Hc, Ha. unfold call_onMsg, mbind, js_bind, bind.
  simpl. by destruct (consumer_returns cb j).
Qed.

Lemma onmessage_dead h p j s :
  JSON_parse p = Some j →
  (∀ sub cb, subs s !! h = Some sub → onMsg sub = Some cb → alive sub = false) →
  onmessage h p s = Normal tt s.
Proof.
  intros Hp Hd.
  unfold UseWs.onmessage, try_catch, mbind, js_bind, bind, parse, read_sub.
  rewrite Hp. simpl. destruct (subs s !! h) as [sub |] eqn:Hs; [| done].
  destruct (onMsg sub) as [cb |] eqn:Hc; [| done].
  by rewrite (Hd sub cb).
Qed.

(** *** Reading a trace piece by piece *)

Lemma all_dispatches_app a b :
  all_dispatches (a ++ b) = all_dispatches a ++ all_dispatches b.
Proof. apply omap_app. Qed.

Lemma dispatches_app h a b :
  dispatches h (a ++ b) = dispatches h a ++ dispatches h b.
Proof. unfold dispatches. by rewrite all_dispatches_app, omap_app. Qed.

Lemma close_calls_app h a b :
  close_calls h (a ++ b) = close_calls h a + close_calls h b.
Proof. unfold close_calls. by rewrite List.filter_app, length_app. Qed.

Lemma opens_app a b : opens (a ++ b) = opens a ++ opens b.
Proof. apply omap_app. Qed.

Lemma close_events_dispatches w s : all_dispatches (close_events w s) = [].
Proof. unfold close_events. by destruct (closable w s). Qed.

Lemma close_events_opens w s : opens (close_events w s) = [].
Proof. unfold close_events. by destruct (closable w s). Qed.

Lemma close_events_calls h w s :
  close_calls h (close_events w s) = if Nat.eqb h w then 1 else 0.
Proof.
  unfold close_events, close_calls. simpl.
  by destruct (Nat.eqb h w), (closable w s).
Qed.

Lemma cleanup_events_dispatches s : all_dispatches (cleanup_events s) = [].
Proof.
  unfold cleanup_events. destruct (cleanup s), (wsRef s); try done.
  apply close_events_dispatches.
Qed.

Lemma cleanup_events_opens s : opens (cleanup_events s) = [].
Proof.
  unfold cleanup_events. destruct (cleanup s), (wsRef s); try done.
  apply close_events_opens.
Qed.

(** *** The state transformers *)

Lemma alive_map_set_readyState h r s :
  alive_map (update_sub h (set_readyState r) s) = alive_map s.
Proof.
  unfold alive_map. simpl.
  rewrite (list_fmap_alter alive (set_readyState r) id).
  - by rewrite list_alter_id.
  - by apply Forall_forall.
Qed.

Lemma bindings_set_readyState h r s :
  bindings (update_sub h (set_readyState r) s) = bindings s.
Proof.
  unfold bindings. simpl.
  rewrite (list_fmap_alter _ (set_readyState r) id).
  - by rewrite list_alter_id.
  - by apply Forall_forall.
Qed.

Lemma alive_map_set_alive h b s :
  alive_map (update_sub h (set_alive b) s) = alter (λ _, b) h (alive_map s).
Proof.
  unfold alive_map. simpl. apply list_fmap_alter. by apply Forall_forall.
Qed.

Lemma bindings_set_alive h b s :
  bindings (update_sub h (set_alive b) s) = bindings s.
Proof.
  unfold bindings. simpl.
  rewrite (list_fmap_alter _ (set_alive b) id).
  - by rewrite list_alter_id.
  - by apply Forall_forall.
Qed.

Lemma closable_set_alive w h b s :
  closable w (update_sub h (set_alive b) s) = closable w s.
Proof.
  unfold closable. simpl. rewrite list_lookup_alter.
  case_decide; [subst |]; [| done].
  by destruct (subs s !! w).
Qed.

(** What [close()] leaves: the socket closing if it could still be
    closed, one call in the trace, nothing else touched. *)
Lemma ws_close_eq w s :
  ws_close w s
  = if closable w s
    then log (NetClose w)
           (update_sub w (set_readyState CLOSING) (log (CallClose w) s))
    else log (CallClose w) s.
Proof.
  unfold ws_close, closable. simpl.
  destruct (subs s !! w) as [sub |]; [| done].
  by destruct (readyState sub).
Qed.

Lemma ws_close_facts w s :
  wsRef (ws_close w s) = wsRef s
  ∧ cleanup (ws_close w s) = cleanup s
  ∧ react (ws_close w s) = react s
  ∧ alive_map (ws_close w s) = alive_map s
  ∧ bindings (ws_close w s) = bindings s
  ∧ trace (ws_close w s) = trace s ++ close_events w s.
Proof.
  rewrite ws_close_eq. unfold close_events.
  destruct (closable w s); simpl; split_and!; try done.
  - apply (alive_map_set_readyState w CLOSING (log (CallClose w) s)).
  - apply (bindings_set_readyState w CLOSING (log (CallClose w) s)).
  - by rewrite <- app_assoc.
Qed.

(** What the stored cleanup leaves. *)
Lemma run_cleanup_facts s :
  wsRef (run_cleanup s) = wsRef s
  ∧ cleanup (run_cleanup s) = cleanup s
  ∧ react (run_cleanup s) = react s
  ∧ alive_map (run_cleanup s)
    = match cleanup s with
      | Some h => alter (λ _, false) h (alive_map s)
      | None => alive_map s
      end
  ∧ bindings (run_cleanup s) = bindings s
  ∧ trace (run_cleanup s) = trace s ++ cleanup_events s.
Proof.
  unfold run_cleanup, cleanup_events.
  destruct (cleanup s) as [h |] eqn:Hc; [| by rewrite app_nil_r].
  unfold cleanup_fn. simpl.
  destruct (wsRef s) as [w |] eqn:Hw.
  - destruct (ws_close_facts w (update_sub h (set_alive false) s))
      as (-> & -> & -> & -> & -> & ->). simpl.
    rewrite alive_map_set_alive, bindings_set_alive.
    unfold close_events. by rewrite closable_set_alive.
  - simpl. rewrite alive_map_set_alive, bindings_set_alive.
    by rewrite app_nil_r.
Qed.

(** *** Transport events leave React's bookkeeping alone *)

Lemma undisturbed_refl s : undisturbed s s.
Proof. by unfold undisturbed. Qed.

Lemma undisturbed_trans s1 s2 s3 :
  undisturbed s1 s2 → undisturbed s2 s3 → undisturbed s1 s3.
Proof.
  intros (H1 & H2 & H3 & H4 & H5 & H6 & H7) (K1 & K2 & K3 & K4 & K5 & K6 & K7).
  unfold undisturbed.
  split_and!; first [congruence | intros h; by rewrite K6, H6].
Qed.

Lemma undisturbed_log ev s :
  (∀ h, is_close_call h ev = false) → opens [ev] = [] →
  undisturbed s (log ev s).
Proof.
  intros Hc Ho. unfold undisturbed. simpl. split_and!; try done.
  - intros h. rewrite close_calls_app. unfold close_calls at 2. simpl.
    rewrite Hc. simpl. lia.
  - by rewrite opens_app, Ho, app_nil_r.
Qed.

Lemma undisturbed_set_readyState h r s :
  undisturbed s (update_sub h (set_readyState r) s).
Proof.
  unfold undisturbed.
  by rewrite alive_map_set_readyState, bindings_set_readyState.
Qed.

Lemma consistent_undisturbed s s' :
  consistent s → undisturbed s s' → consistent s'.
Proof.
  intros [I1 I2 I3 I4 I5] (H1 & H2 & H3 & H4 & H5 & H6 & H7).
  split.
  - intros u cb. rewrite H3, H2. apply I1.
  - intros h. rewrite H4, H2. apply I2.
  - intros h. rewrite H2, H1, H4, H5, H3. apply I3.
  - intros h. rewrite H6, H4. apply I4.
  - rewrite H7, H5. apply I5.
Qed.

Lemma ws_open_event_undisturbed h s : undisturbed s (ws_open_event h s).
Proof.
  unfold ws_open_event. destruct (subs s !! h) as [sub |];
    [| apply undisturbed_refl].
  destruct (readyState sub); try apply undisturbed_refl.
  eapply undisturbed_trans; [apply undisturbed_set_readyState |].
  by apply undisturbed_log.
Qed.

Lemma ws_error_event_undisturbed h s : undisturbed s (ws_error_event h s).
Proof.
  unfold ws_error_event. destruct (subs s !! h) as [sub |];
    [| apply undisturbed_refl].
  by apply undisturbed_log.
Qed.

Lemma ws_close_event_undisturbed h s : undisturbed s (ws_close_event h s).
Proof.
  unfold ws_close_event. destruct (subs s !! h) as [sub |];
    [| apply undisturbed_refl].
  destruct (readyState sub); try apply undisturbed_refl;
    (eapply undisturbed_trans; [apply undisturbed_set_readyState |];
     by apply undisturbed_log).
Qed.

(** A frame, in full: the handler returns, and the state it leaves. *)
Lemma ws_message_event_eq h p s :
  ws_message_event JSON_parse consumer_returns h p s
  = Normal tt
      match subs s !! h with
      | None => s
      | Some sub =>
          match JSON_parse p with
          | None => log (ConsoleError "ws parse") s
          | Some j =>
              match onMsg sub with
              | None => s
              | Some cb =>
                  if alive sub
                  then if consumer_returns cb j
                       then log (Dispatch h cb j) s
                       else log (ConsoleError "ws parse")
                              (log (Dispatch h cb j) s)
                  else s
              end
          end
      end.
Proof.
  unfold ws_message_event. destruct (subs s !! h) as [sub |] eqn:Hs; [| done].
  destruct (JSON_parse p) as [j |] eqn:Hp; [| by apply onmessage_malformed].
  destruct (onMsg sub) as [cb |] eqn:Hc.
  - destruct (alive sub) eqn:Ha.
    + by apply (onmessage_live h p j sub cb).
    + apply (onmessage_dead h p j); [done |]. congruence.
  - apply (onmessage_dead h p j); [done |]. congruence.
Qed.

Lemma ws_message_event_undisturbed h p s :
  undisturbed s (final (ws_message_event JSON_parse consumer_returns h p s)).
Proof.
  rewrite ws_message_event_eq. simpl.
  destruct (subs s !! h) as [sub |]; [| apply undisturbed_refl].
  destruct (JSON_parse p) as [j |]; [| by apply undisturbed_log].
  destruct (onMsg sub) as [cb |]; [| apply undisturbed_refl].
  destruct (alive sub); [| apply undisturbed_refl].
  destruct (consumer_returns cb j).
  - by apply undisturbed_log.
  - eapply undisturbed_trans; by apply undisturbed_log.
Qed.

Lemma transport_undisturbed i s :
  is_render i = false → i ≠ Unmount → undisturbed s (final (step i s)).
Proof.
  intros Hr Hu. destruct i; try done; simpl.
  - apply ws_open_event_undisturbed.
  - apply ws_message_event_undisturbed.
  - apply ws_error_event_undisturbed.
  - apply ws_close_event_undisturbed.
Qed.

(** *** An effect run, case by case *)

Lemma run_cleanup_length s : length (subs (run_cleanup s)) = length (subs s).
Proof.
  destruct (run_cleanup_facts s) as (_ & _ & _ & _ & Hb & _).
  apply (f_equal length) in Hb. unfold bindings in Hb.
  by rewrite !length_fmap in Hb.
Qed.

(** The effect never throws into React: the run either leaves no
    subscription (falsy or refused endpoint) or a new live one. *)
Lemma rerun_cases u cb s :
  ∃ s', rerun u cb s = Normal tt s'
    ∧ react s' = Mounted u cb
    ∧ ((cleanup s' = None
        ∧ (falsy u = true
           ∨ ∃ u0, u = Some u0 ∧ WebSocket_accepts u0 = false)
        ∧ wsRef s' = wsRef s
        ∧ subs s' = subs (run_cleanup s)
        ∧ trace s' = trace s ++ cleanup_events s
                     ++ (if falsy u then [] else [ConsoleError "ws err"]))
       ∨ (∃ u0, u = Some u0 ∧ String.eqb u0 "" = false
            ∧ WebSocket_accepts u0 = true
            ∧ cleanup s' = Some (length (subs s))
            ∧ wsRef s' = Some (length (subs s))
            ∧ subs s' = subs (run_cleanup s)
                        ++ [{| url := u0; readyState := CONNECTING;
                               alive := true; onMsg := cb |}]
            ∧ trace s' = trace s ++ cleanup_events s
                         ++ [NetOpen (length (subs s)) u0])).
Proof.
  destruct (run_cleanup_facts s) as (Hw & Hc & Hr & Ha & Hb & Ht).
  pose proof (run_cleanup_length s) as Hl.
  unfold UseWs.rerun, mbind, js_bind, bind, modify.
  destruct (falsy u) eqn:Hf.
  - rewrite (effect_falsy u cb _ Hf). eexists. split; [done |].
    simpl. split; [done |]. left. split_and!; try done; [by left |].
    by rewrite Ht, app_nil_r.
  - destruct u as [u0 |]; [| done]. simpl in Hf.
    destruct (WebSocket_accepts u0) eqn:Hacc.
    + rewrite (effect_accepted u0 cb _ Hf Hacc). eexists. split; [done |].
      simpl. split; [done |]. right. exists u0. rewrite Hl, Ht.
      split_and!; try done. by rewrite <- app_assoc.
    + rewrite (effect_refused u0 cb _ Hf Hacc). eexists. split; [done |].
      simpl. split; [done |]. left. split_and!; try done; [right; eauto |].
      by rewrite Ht, <- app_assoc.
Qed.

(** *** Every step returns *)

Lemma render_runs_effect u cb s :
  effect_runs u cb s → step (Render u cb) s = rerun u cb s.
Proof.
  unfold effect_runs. simpl. unfold render.
  destruct (react s) as [| u' cb' |]; [done | | done]. by intros ->.
Qed.

Lemma step_total i s : ∃ s', step i s = Normal tt s'.
Proof.
  destruct i as [u cb | | h | h p | h | h]; simpl; try by eexists.
  - unfold render. destruct (react s) as [| u' cb' |]; [| | by eexists].
    + destruct (rerun_cases u cb s) as (s' & -> & _). by eexists.
    + destruct (same_deps u u' cb cb'); [by eexists |].
      destruct (rerun_cases u cb s) as (s' & -> & _). by eexists.
  - unfold unmount. destruct (react s); by eexists.
  - rewrite ws_message_event_eq. by eexists.
Qed.

Lemma run_total ins s : ∃ s', run ins s = Normal tt s'.
Proof.
  revert s. induction ins as [| i ins IH]; intros s; simpl; [by eexists |].
  unfold mbind, js_bind, bind. destruct (step_total i s) as (s1 & ->).
  apply IH.
Qed.

(** X17: no input sequence makes the hook throw into React or into the
    browser's event loop, whatever [JSON.parse], the constructor and the
    consumer throw. *)
Lemma run_returns ins s : returns (run ins s) = true.
Proof. by destruct (run_total ins s) as (s' & ->). Qed.

Lemma run_cons i ins s :
  final (run (i :: ins) s) = final (run ins (final (step i s))).
Proof.
  simpl. unfold mbind, js_bind, bind. by destruct (step_total i s) as (s1 & ->).
Qed.

Lemma run_app ins1 ins2 s :
  final (run (ins1 ++ ins2) s) = final (run ins2 (final (run ins1 s))).
Proof.
  revert s. induction ins1 as [| i ins1 IH]; intros s; [done |].
  rewrite <- app_comm_cons, !run_cons. apply IH.
Qed.

(** *** The invariant *)

Lemma consistent_init : consistent init.
Proof. split; simpl; done. Qed.

Lemma cleanup_leaves_none_alive s k :
  consistent s → alive_map (run_cleanup s) !! k ≠ Some true.
Proof.
  intros [_ I2 _ _ _] Hk.
  destruct (run_cleanup_facts s) as (_ & _ & _ & Ha & _).
  rewrite Ha in Hk. destruct (cleanup s) as [h |] eqn:Hc.
  - rewrite list_lookup_alter in Hk. case_decide as Hd.
    + destruct (alive_map s !! h); discriminate Hk.
    + apply I2 in Hk. congruence.
  - apply I2 in Hk. congruence.
Qed.

Lemma cleanup_close_once s k :
  consistent s →
  close_calls k (trace s ++ cleanup_events s)
  = match alive_map (run_cleanup s) !! k with Some false => 1 | _ => 0 end.
Proof.
  intros [_ I2 I3 I4 _].
  destruct (run_cleanup_facts s) as (_ & _ & _ & Ha & _).
  rewrite close_calls_app, I4, Ha. unfold cleanup_events.
  destruct (cleanup s) as [h |] eqn:Hc; [| unfold close_calls; simpl; lia].
  destruct (I3 h eq_refl) as (Hw & Hal & _). rewrite Hw, close_events_calls.
  rewrite list_lookup_alter. case_decide as Hd.
  - subst k. rewrite Hal, Nat.eqb_refl. done.
  - destruct (Nat.eqb_spec k h) as [-> | _]; [done |]. lia.
Qed.

Lemma consistent_rerun u cb s :
  consistent s → consistent (final (rerun u cb s)).
Proof.
  intros Hs. pose proof Hs as [I1 I2 I3 I4 I5].
  destruct (run_cleanup_facts s) as (_ & _ & _ & _ & Hb & _).
  destruct (rerun_cases u cb s) as (s' & -> & Hr & Hcase). simpl.
  destruct Hcase as [(Hc & Hwhy & Hw & Hsub & Ht)
                    | (u0 & -> & Hu0 & Hacc & Hc & Hw & Hsub & Ht)].
  - assert (Ha' : alive_map s' = alive_map (run_cleanup s))
      by (unfold alive_map; by rewrite Hsub).
    assert (Hb' : bindings s' = bindings s)
      by (unfold bindings in *; by rewrite Hsub).
    split.
    + intros u1 cb1 Hm Hu1 Ha1. rewrite Hr in Hm. injection Hm as -> ->.
      destruct Hwhy as [Hf | (u0 & [= <-] & Hno)]; simpl in *; congruence.
    + intros h Hh. rewrite Ha' in Hh.
      by apply cleanup_leaves_none_alive in Hh.
    + intros h Hh. congruence.
    + intros h. rewrite Ht, Ha', app_assoc, close_calls_app.
      rewrite cleanup_close_once by done.
      unfold close_calls at 1. destruct (falsy u); simpl; lia.
    + rewrite Ht, Hb', !opens_app, cleanup_events_opens, I5.
      destruct (falsy u); by rewrite !app_nil_r.
  - assert (Ha' : alive_map s' = alive_map (run_cleanup s) ++ [true])
      by (unfold alive_map; by rewrite Hsub, fmap_app).
    assert (Hb' : bindings s' = bindings s ++ [(u0, cb)])
      by (unfold bindings in *; by rewrite Hsub, fmap_app, Hb).
    assert (Hlen : length (alive_map (run_cleanup s)) = length (subs s))
      by (unfold alive_map; by rewrite length_fmap, run_cleanup_length).
    split.
    + intros _ _ _ _ _. by rewrite Hc.
    + intros h Hh. rewrite Ha', lookup_app in Hh.
      destruct (alive_map (run_cleanup s) !! h) as [b |] eqn:Hold.
      * injection Hh as ->. by apply cleanup_leaves_none_alive in Hold.
      * apply lookup_ge_None_1 in Hold.
        destruct (h - length (alive_map (run_cleanup s))) as [| n] eqn:Hd;
          [| by destruct n].
        rewrite Hc. f_equal. lia.
    + intros h Hh. rewrite Hc in Hh. injection Hh as <-.
      split_and!; [done | |].
      * rewrite Ha'. by apply list_lookup_middle.
      * exists u0, cb. split; [| done]. rewrite Hb'.
        apply list_lookup_middle. unfold bindings. by rewrite length_fmap.
    + intros h. rewrite Ht, Ha', app_assoc, close_calls_app.
      rewrite cleanup_close_once by done.
      unfold close_calls at 1. simpl. rewrite lookup_app.
      destruct (alive_map (run_cleanup s) !! h) as [b |] eqn:Hold; [lia |].
      destruct (h - length (alive_map (run_cleanup s))) as [| n];
        [done | by destruct n].
    + rewrite Ht, Hb', !opens_app, cleanup_events_opens, I5, imap_app.
      simpl. unfold bindings at 3. by rewrite length_fmap, Nat.add_0_r.
Qed.

Lemma consistent_unmounted s :
  consistent s → consistent (commit None Unmounted (run_cleanup s)).
Proof.
  intros Hs. pose proof Hs as [I1 I2 I3 I4 I5].
  destruct (run_cleanup_facts s) as (_ & _ & _ & _ & Hb & Ht).
  split; simpl.
  - done.
  - intros h Hh. by apply (cleanup_leaves_none_alive s h) in Hh.
  - done.
  - intros h. rewrite Ht. by apply cleanup_close_once.
  - change (bindings (commit None Unmounted (run_cleanup s)))
      with (bindings (run_cleanup s)).
    by rewrite Ht, Hb, opens_app, cleanup_events_opens, app_nil_r.
Qed.

Lemma consistent_step i s : consistent s → consistent (final (step i s)).
Proof.
  intros Hs. destruct i as [u cb | | h | h p | h | h].
  - simpl. unfold render. destruct (react s) as [| u' cb' |]; [| | done].
    + by apply consistent_rerun.
    + destruct (same_deps u u' cb cb'); [done | by apply consistent_rerun].
  - simpl. unfold unmount. destruct (react s); try done.
    by apply consistent_unmounted.
  - by apply (consistent_undisturbed s), (transport_undisturbed (WsOpen h)).
  - by apply (consistent_undisturbed s), (transport_undisturbed (WsMessage h p)).
  - by apply (consistent_undisturbed s), (transport_undisturbed (WsError h)).
  - by apply (consistent_undisturbed s), (transport_undisturbed (WsClose h)).
Qed.

Lemma consistent_run ins s : consistent s → consistent (final (run ins s)).
Proof.
  revert s. induction ins as [| i ins IH]; intros s Hs; [done |].
  rewrite run_cons. by apply IH, consistent_step.
Qed.

Lemma reachable_consistent ins : consistent (final (run ins init)).
Proof. apply consistent_run, consistent_init. Qed.

(** *** Consumer calls *)

Lemma closed_alive_map h s : closed h s ↔ alive_map s !! h = Some false.
Proof.
  unfold closed, alive_map. rewrite list_lookup_fmap. split.
  - intros (sub & -> & Ha). simpl. by rewrite Ha.
  - destruct (subs s !! h) as [sub |]; [| done]. simpl.
    intros [= Ha]. eauto.
Qed.

(** The only consumer call a step makes is the delivery of its frame. *)
Lemma step_dispatches i s :
  all_dispatches (trace (final (step i s)))
  = all_dispatches (trace s) ++ delivery JSON_parse i s.
Proof.
  assert (Hrerun : ∀ u cb,
    all_dispatches (trace (final (rerun u cb s))) = all_dispatches (trace s) ++ []).
  { intros u cb. destruct (rerun_cases u cb s) as (s' & -> & _ & Hcase). simpl.
    destruct Hcase as [(_ & _ & _ & _ & ->) | (u0 & _ & _ & _ & _ & _ & _ & ->)];
      rewrite !all_dispatches_app, cleanup_events_dispatches;
      [by destruct (falsy u) | done]. }
  destruct i as [u cb | | h | h p | h | h]; simpl.
  - unfold render. destruct (react s) as [| u' cb' |];
      [done | | by rewrite app_nil_r].
    destruct (same_deps u u' cb cb'); [by rewrite app_nil_r | done].
  - unfold unmount. destruct (react s); simpl; try by rewrite app_nil_r.
    destruct (run_cleanup_facts s) as (_ & _ & _ & _ & _ & ->).
    by rewrite all_dispatches_app, cleanup_events_dispatches.
  - rewrite app_nil_r. unfold ws_open_event.
    destruct (subs s !! h) as [sub |]; [| done].
    destruct (readyState sub); simpl; try done.
    by rewrite all_dispatches_app, app_nil_r.
  - rewrite ws_message_event_eq. simpl.
    destruct (subs s !! h) as [sub |]; [| by rewrite app_nil_r].
    destruct (JSON_parse p) as [j |];
      [| simpl; by rewrite all_dispatches_app].
    destruct (onMsg sub) as [cb |]; [| by rewrite app_nil_r].
    destruct (alive sub); [| by rewrite app_nil_r].
    destruct (consumer_returns cb j); simpl;
      by rewrite !all_dispatches_app, ?app_nil_r.
  - rewrite app_nil_r. unfold ws_error_event.
    destruct (subs s !! h) as [sub |]; [| done]. simpl.
    by rewrite all_dispatches_app, app_nil_r.
  - rewrite app_nil_r. unfold ws_close_event.
    destruct (subs s !! h) as [sub |]; [| done].
    destruct (readyState sub); simpl; try done;
      by rewrite all_dispatches_app, app_nil_r.
Qed.

Lemma step_dispatches_on h i s :
  dispatches h (trace (final (step i s)))
  = dispatches h (trace s) ++ delivered_to h i s.
Proof. unfold dispatches. by rewrite step_dispatches, omap_app. Qed.

Lemma delivered_to_bound h i s :
  length (delivered_to h i s) ≤ if is_frame_on h i then 1 else 0.
Proof.
  unfold delivered_to, delivery. destruct i as [| | | h' p | |]; simpl; try lia.
  destruct (subs s !! h') as [sub |]; [| simpl; lia].
  destruct (JSON_parse p) as [j |]; [| simpl; lia].
  destruct (onMsg sub) as [cb |]; [| simpl; lia].
  destruct (alive sub); [| simpl; lia].
  simpl. destruct (Nat.eqb h h'); simpl; lia.
Qed.

Lemma delivered_to_closed h i s : closed h s → delivered_to h i s = [].
Proof.
  intros (sub & Hs & Ha). unfold delivered_to, delivery.
  destruct i as [| | | h' p | |]; simpl; try done.
  destruct (subs s !! h') as [sub' |] eqn:Hs'; [| done].
  destruct (JSON_parse p) as [j |]; [| done].
  destruct (onMsg sub') as [cb |]; [| done].
  destruct (alive sub') eqn:Ha'; [| done]. simpl.
  destruct (Nat.eqb_spec h h') as [-> | _]; [| done]. congruence.
Qed.

(** Once the cleanup of a subscription has run, it has run for good. *)
Lemma closed_step h i s : closed h s → closed h (final (step i s)).
Proof.
  rewrite !closed_alive_map. intros Hh.
  assert (Hclean : alive_map (run_cleanup s) !! h = Some false).
  { destruct (run_cleanup_facts s) as (_ & _ & _ & -> & _).
    destruct (cleanup s) as [k |]; [| done].
    rewrite list_lookup_alter. case_decide; [subst |]; by rewrite ?Hh. }
  assert (Hrerun : ∀ u cb, alive_map (final (rerun u cb s)) !! h = Some false).
  { intros u cb. destruct (rerun_cases u cb s) as (s' & -> & _ & Hcase). simpl.
    unfold alive_map in *.
    destruct Hcase as [(_ & _ & _ & -> & _) | (u0 & _ & _ & _ & _ & _ & -> & _)];
      [done |].
    rewrite fmap_app. by apply lookup_app_l_Some. }
  destruct i as [u cb | | k | k p | k | k].
  - simpl. unfold render. destruct (react s) as [| u' cb' |]; [done | | done].
    by destruct (same_deps u u' cb cb').
  - simpl. unfold unmount. by destruct (react s).
  - destruct (transport_undisturbed (WsOpen k) s) as (_ & _ & _ & -> & _); done.
  - destruct (transport_undisturbed (WsMessage k p) s) as (_ & _ & _ & -> & _);
      done.
  - destruct (transport_undisturbed (WsError k) s) as (_ & _ & _ & -> & _); done.
  - destruct (transport_undisturbed (WsClose k) s) as (_ & _ & _ & -> & _); done.
Qed.

Lemma closed_run h ins s :
  closed h s →
  closed h (final (run ins s))
  ∧ dispatches h (trace (final (run ins s))) = dispatches h (trace s).
Proof.
  revert s. induction ins as [| i ins IH]; intros s Hs; [done |].
  rewrite run_cons.
  destruct (IH (final (step i s)) (closed_step h i s Hs)) as (Hc & ->).
  split; [done |].
  by rewrite step_dispatches_on, delivered_to_closed, app_nil_r.
Qed.

Lemma dispatches_bound h ins s :
  length (dispatches h (trace (final (run ins s))))
  ≤ length (dispatches h (trace s)) + frames_on h ins.
Proof.
  revert s. induction ins as [| i ins IH]; intros s; [simpl; lia |].
  rewrite run_cons. etrans; [apply IH |].
  rewrite step_dispatches_on, length_app.
  pose proof (delivered_to_bound h i s) as Hb.
  unfold frames_on. simpl. destruct (is_frame_on h i); simpl; lia.
Qed.

(** X18: both ways React tears the current subscription down, unmounting
    and re-running the effect, leave it closed. *)
Lemma teardown_closes ins h u cb :
  let s := final (run ins init) in
  cleanup s = Some h →
  closed h (final (step Unmount s))
  ∧ (effect_runs u cb s → closed h (final (step (Render u cb) s))).
Proof.
  intros s Hc.
  pose proof (reachable_consistent ins) as Hs. fold s in Hs.
  destruct (current_is_alive _ _ Hs h Hc) as (_ & Hal & u1 & cb1 & _ & Hr).
  assert (Hclean : alive_map (run_cleanup s) !! h = Some false).
  { destruct (run_cleanup_facts s) as (_ & _ & _ & -> & _).
    by rewrite Hc, list_lookup_alter_eq, Hal. }
  split.
  - apply closed_alive_map. simpl. unfold unmount. by rewrite Hr.
  - intros Hruns. apply closed_alive_map. rewrite render_runs_effect by done.
    destruct (rerun_cases u cb s) as (s' & -> & _ & Hcase). simpl.
    unfold alive_map in *.
    destruct Hcase as [(_ & _ & _ & -> & _) | (u0 & _ & _ & _ & _ & _ & -> & _)];
      [done |].
    rewrite fmap_app. by apply lookup_app_l_Some.
Qed.

(** C1: if the cleanup of subscription [h] has run by the time the inputs
    [pre] are over (so before any frame of [post] arrives), then whatever
    comes next, frames on [h] included, the consumer calls made for [h]
    stay what they were: none is made for a later frame; and they number at
    most the frames delivered on [h] during [pre]. *)
Theorem no_dispatch_after_close (pre post : list input) (h : nat) :
  closed h (final (run pre init)) →
  dispatches h (trace (final (run (pre ++ post) init)))
  = dispatches h (trace (final (run pre init)))
  ∧ length (dispatches h (trace (final (run (pre ++ post) init))))
    ≤ frames_on h pre.
Proof.
  intros Hc. rewrite run_app.
  destruct (closed_run h post _ Hc) as (_ & ->). split; [done |].
  etrans; [apply dispatches_bound |]. simpl. lia.
Qed.

(** *** Frames on a live subscription *)

Lemma live_frame h cb p s :
  live h cb s →
  step (WsMessage h p) s
  = Normal tt
      {| subs := subs s; wsRef := wsRef s; cleanup := cleanup s;
         react := react s;
         trace := trace s ++ frame_events JSON_parse consumer_returns h cb p |}.
Proof.
  intros (sub & Hs & Ha & Hc). simpl. rewrite ws_message_event_eq.
  rewrite Hs, Hc, Ha. unfold frame_events. f_equal.
  destruct (JSON_parse p) as [j |]; [| done].
  destruct (consumer_returns cb j); [done |].
  unfold log. simpl. by rewrite <- app_assoc.
Qed.

Lemma live_frames h cb frames s :
  live h cb s →
  run (WsMessage h <$> frames) s
  = Normal tt
      {| subs := subs s; wsRef := wsRef s; cleanup := cleanup s;
         react := react s;
         trace := trace s
                  ++ flat_map (frame_events JSON_parse consumer_returns h cb)
                       frames |}.
Proof.
  revert s. induction frames as [| p frames IH]; intros s Hl.
  - simpl. rewrite app_nil_r. by destruct s.
  - rewrite fmap_cons. simpl. unfold mbind, js_bind, bind.
    change (UseWs.ws_message_event JSON_parse consumer_returns h p s)
      with (step (WsMessage h p) s).
    rewrite (live_frame h cb p s Hl), IH by done.
    simpl. by rewrite <- app_assoc.
Qed.

Lemma frame_events_dispatches h cb frames :
  dispatches h (flat_map (frame_events JSON_parse consumer_returns h cb) frames)
  = (λ j, (cb, j)) <$> omap JSON_parse frames.
Proof.
  induction frames as [| p frames IH]; [done |].
  simpl. rewrite dispatches_app, IH. unfold frame_events.
  destruct (JSON_parse p) as [j |]; [| done].
  unfold dispatches at 1. destruct (consumer_returns cb j); simpl;
    by rewrite Nat.eqb_refl.
Qed.

(** C2: on a subscription that is alive and has a consumer, a sequence of
    frames returns normally and adds to the trace, frame by frame and in
    arrival order, one consumer call with the parsed value for a frame that
    parses (followed by a logged error only if the consumer throws) and
    one logged error, without any consumer call, for a frame that does
    not; the sockets and React's bookkeeping are untouched (nothing is
    closed), so the consumer calls made are the parsed values of the
    well-formed frames, in order, and number as many. *)
Theorem frames_dispatched_in_order (h : nat) (cb : callback)
    (frames : list string) (s : hook) :
  live h cb s →
  ∃ s',
    run (WsMessage h <$> frames) s = Normal tt s'
    ∧ trace s'
      = trace s
        ++ flat_map (frame_events JSON_parse consumer_returns h cb) frames
    ∧ subs s' = subs s ∧ wsRef s' = wsRef s ∧ cleanup s' = cleanup s
    ∧ react s' = react s
    ∧ live h cb s'
    ∧ dispatches h (trace s')
      = dispatches h (trace s) ++ ((λ j, (cb, j)) <$> omap JSON_parse frames)
    ∧ length (dispatches h (trace s'))
      = length (dispatches h (trace s)) + length (omap JSON_parse frames).
Proof.
  intros Hl. eexists. split; [by apply live_frames |]. simpl.
  split_and!; try done.
  - by rewrite dispatches_app, frame_events_dispatches.
  - by rewrite dispatches_app, frame_events_dispatches, length_app, length_fmap.
Qed.

(** *** Late events and inert handles *)

(** A subscription keeps the endpoint and the consumer it was made for. *)
Lemma bindings_step h b i s :
  bindings s !! h = Some b → bindings (final (step i s)) !! h = Some b.
Proof.
  intros Hh.
  assert (Hrerun : ∀ u cb, bindings (final (rerun u cb s)) !! h = Some b).
  { intros u cb. destruct (run_cleanup_facts s) as (_ & _ & _ & _ & Hb & _).
    destruct (rerun_cases u cb s) as (s' & -> & _ & Hcase). simpl.
    unfold bindings in *.
    destruct Hcase as [(_ & _ & _ & -> & _) | (u0 & _ & _ & _ & _ & _ & -> & _)];
      [by rewrite Hb |].
    rewrite fmap_app, Hb. by apply lookup_app_l_Some. }
  destruct i as [u cb | | k | k p | k | k].
  - simpl. unfold render. destruct (react s) as [| u' cb' |]; [done | | done].
    by destruct (same_deps u u' cb cb').
  - simpl. unfold unmount. destruct (react s); try done. simpl.
    destruct (run_cleanup_facts s) as (_ & _ & _ & _ & Hb & _).
    change (bindings (run_cleanup s) !! h = Some b). by rewrite Hb.
  - destruct (transport_undisturbed (WsOpen k) s)
      as (_ & _ & _ & _ & -> & _); done.
  - destruct (transport_undisturbed (WsMessage k p) s)
      as (_ & _ & _ & _ & -> & _); done.
  - destruct (transport_undisturbed (WsError k) s)
      as (_ & _ & _ & _ & -> & _); done.
  - destruct (transport_undisturbed (WsClose k) s)
      as (_ & _ & _ & _ & -> & _); done.
Qed.

Lemma bindings_run h b ins s :
  bindings s !! h = Some b → bindings (final (run ins s)) !! h = Some b.
Proof.
  revert s. induction ins as [| i ins IH]; intros s Hs; [done |].
  rewrite run_cons. by apply IH, bindings_step.
Qed.

(** With no cleanup stored, no subscription is alive: until the next
    render nothing reaches a consumer. *)
Lemma quiet_step i s :
  consistent s → cleanup s = None → is_render i = false →
  cleanup (final (step i s)) = None
  ∧ all_dispatches (trace (final (step i s))) = all_dispatches (trace s).
Proof.
  intros Hs Hc Hr. split.
  - destruct i as [u cb | | k | k p | k | k]; try done.
    + simpl. unfold unmount. by destruct (react s).
    + destruct (transport_undisturbed (WsOpen k) s) as (_ & -> & _); done.
    + destruct (transport_undisturbed (WsMessage k p) s) as (_ & -> & _); done.
    + destruct (transport_undisturbed (WsError k) s) as (_ & -> & _); done.
    + destruct (transport_undisturbed (WsClose k) s) as (_ & -> & _); done.
  - rewrite step_dispatches.
    assert (Hd : delivery JSON_parse i s = []); [| by rewrite Hd, app_nil_r].
    destruct i as [| | | k p | |]; try done. simpl.
    destruct (subs s !! k) as [sub |] eqn:Hk; [| done].
    destruct (JSON_parse p) as [j |]; [| done].
    destruct (onMsg sub) as [cb |]; [| done].
    destruct (alive sub) eqn:Ha; [| done].
    assert (Hal : alive_map s !! k = Some true).
    { unfold alive_map. by rewrite list_lookup_fmap, Hk, <- Ha. }
    apply (alive_is_current _ _ Hs) in Hal. congruence.
Qed.

Lemma quiet_run ins s :
  consistent s → cleanup s = None →
  forallb (λ i, negb (is_render i)) ins = true →
  all_dispatches (trace (final (run ins s))) = all_dispatches (trace s).
Proof.
  revert s. induction ins as [| i ins IH]; intros s Hs Hc Hr; [done |].
  simpl in Hr. apply andb_prop in Hr as [Hi Hr].
  apply negb_true_iff in Hi.
  destruct (quiet_step i s Hs Hc Hi) as (Hc' & Hd).
  rewrite run_cons, IH; [done | by apply consistent_step | done | done].
Qed.

(** Tearing down when no cleanup is stored does nothing but retire the
    component. *)
Lemma unmount_inert s :
  cleanup s = None →
  ∃ s', step Unmount s = Normal tt s'
        ∧ trace s' = trace s ∧ subs s' = subs s ∧ wsRef s' = wsRef s
        ∧ cleanup s' = None.
Proof.
  intros Hc. simpl. unfold unmount.
  destruct (react s); (eexists; split; [done |]); try done.
  unfold run_cleanup. by rewrite Hc.
Qed.

(** *** Re-subscription *)

(** C3, amended: in any state the component can reach with the effect
    last run for [U1], when the constructor accepted [U1] and accepts [U2],
    a render with a different non-empty [U2] returns normally and does
    exactly this: one [close()] on the [U1] socket [h1], which had none
    before and has one for ever after, then one new socket [h2] for [U2];
    the effect body starts from the state the cleanup leaves, where [alive]
    of [h1] is already false and [h2] does not exist yet; [h2] is a new object and [h1] keeps its
    endpoint for ever; and whatever arrives later, no consumer call is made
    for [h1] again. *)
Theorem endpoint_change_resubscribes (pre : list input) (U1 U2 : string)
    (cb1 cb2 : option callback) :
  let s := final (run pre init) in
  react s = Mounted (Some U1) cb1 →
  U1 ≠ U2 → String.eqb U1 "" = false → String.eqb U2 "" = false →
  WebSocket_accepts U1 = true → WebSocket_accepts U2 = true →
  ∃ h1 s',
    let h2 := length (subs s) in
    (wsRef s = Some h1 ∧ bindings s !! h1 = Some (U1, cb1)
     ∧ alive_map s !! h1 = Some true ∧ close_calls h1 (trace s) = 0)
    ∧ step (Render (Some U2) cb2) s = Normal tt s'
    ∧ trace s' = trace s ++ close_events h1 s ++ [NetOpen h2 U2]
    ∧ close_calls h1 (trace s') = 1
    ∧ opens (trace s') = opens (trace s) ++ [(h2, U2)]
    ∧ (step (Render (Some U2) cb2) s
       = (c ← useWs_effect (Some U2) cb2;
          modify (commit c (Mounted (Some U2) cb2))) (run_cleanup s)
       ∧ closed h1 (run_cleanup s) ∧ subs (run_cleanup s) !! h2 = None)
    ∧ (h1 < h2 ∧ bindings s' = bindings s ++ [(U2, cb2)]
       ∧ wsRef s' = Some h2 ∧ alive_map s' !! h2 = Some true)
    ∧ ∀ post,
        let s'' := final (run post s') in
        dispatches h1 (trace s'') = dispatches h1 (trace s')
        ∧ close_calls h1 (trace s'') = 1
        ∧ bindings s'' !! h1 = Some (U1, cb1).
Proof.
  intros s Hr Hne HU1 HU2 Ha1 Ha2.
  pose proof (reachable_consistent pre) as Hs. fold s in Hs.
  pose proof Hs as [I1 I2 I3 I4 I5].
  destruct (I1 U1 cb1 Hr HU1 Ha1) as (h1 & Hc).
  destruct (I3 h1 Hc) as (Hw & Hal & u & cb & Hb & Hr').
  rewrite Hr in Hr'. injection Hr' as <- <-.
  destruct (run_cleanup_facts s) as (_ & _ & _ & Hca & Hcb & Hct).
  rewrite Hc in Hca.
  assert (Hruns : effect_runs (Some U2) cb2 s).
  { unfold effect_runs, same_deps. rewrite Hr.
    rewrite bool_decide_eq_false_2; [done | congruence]. }
  assert (Hclosed : alive_map (run_cleanup s) !! h1 = Some false).
  { by rewrite Hca, list_lookup_alter_eq, Hal. }
  destruct (rerun_cases (Some U2) cb2 s) as (s' & Hstep & Hr2 & Hcase).
  destruct Hcase as [(_ & [Hf | (u0 & [= <-] & Hno)] & _)
                    | (u0 & [= <-] & _ & _ & Hc' & Hw' & Hsub & Ht)];
    [simpl in Hf; congruence | congruence |].
  assert (Hce : cleanup_events s = close_events h1 s)
    by (unfold cleanup_events; by rewrite Hc, Hw).
  rewrite Hce in Ht.
  assert (Hb' : bindings s' = bindings s ++ [(U2, cb2)])
    by (unfold bindings in *; by rewrite Hsub, fmap_app, Hcb).
  assert (Hal' : alive_map s' = alive_map (run_cleanup s) ++ [true])
    by (unfold alive_map; by rewrite Hsub, fmap_app).
  assert (Hcl' : closed h1 s').
  { apply closed_alive_map. rewrite Hal'. by apply lookup_app_l_Some. }
  assert (Hlt : h1 < length (subs s)).
  { apply lookup_lt_Some in Hb. unfold bindings in Hb.
    by rewrite length_fmap in Hb. }
  pose proof (consistent_rerun (Some U2) cb2 s Hs) as Hs'.
  rewrite Hstep in Hs'. simpl in Hs'.
  exists h1, s'. cbv zeta. split_and!; try done.
  - by rewrite I4, Hal.
  - by rewrite render_runs_effect.
  - rewrite (close_once _ _ Hs'). apply closed_alive_map in Hcl'.
    by rewrite Hcl'.
  - rewrite Ht, !opens_app, close_events_opens. done.
  - by rewrite render_runs_effect.
  - by apply closed_alive_map.
  - apply lookup_ge_None_2. by rewrite run_cleanup_length.
  - rewrite Hal'. apply list_lookup_middle.
    unfold alive_map. by rewrite length_fmap, run_cleanup_length.
  - intros post.
    destruct (closed_run h1 post s' Hcl') as (Hcl'' & Hd).
    split_and!; [done | |].
    + rewrite (close_once _ _ (consistent_run post s' Hs')).
      apply closed_alive_map in Hcl''. by rewrite Hcl''.
    + apply bindings_run. rewrite Hb'. by apply lookup_app_l_Some.
Qed.

(** *** Construction failure *)

(** C4: in any state the component can reach, a render that runs the
    effect on a non-empty endpoint the constructor refuses returns normally;
    after the previous cleanup the effect only logs ["ws err"]; no socket
    is created and [wsRef] is left as it was; no cleanup is stored, so
    tearing down later does nothing; and until the next render no consumer
    is called, whatever the transport delivers. *)
Theorem construction_failure_is_contained (pre : list input) (u : string)
    (cb : option callback) :
  let s := final (run pre init) in
  String.eqb u "" = false → WebSocket_accepts u = false →
  effect_runs (Some u) cb s →
  useWs_effect (Some u) cb (run_cleanup s)
  = Normal None (log (ConsoleError "ws err") (run_cleanup s))
  ∧ ∃ s',
      step (Render (Some u) cb) s = Normal tt s'
      ∧ trace s' = trace s ++ cleanup_events s ++ [ConsoleError "ws err"]
      ∧ opens (trace s') = opens (trace s)
      ∧ length (subs s') = length (subs s)
      ∧ wsRef s' = wsRef s
      ∧ cleanup s' = None
      ∧ (∀ post, forallb (λ i, negb (is_render i)) post = true →
           all_dispatches (trace (final (run post s')))
           = all_dispatches (trace s))
      ∧ ∃ s'', step Unmount s' = Normal tt s''
               ∧ trace s'' = trace s' ∧ subs s'' = subs s'.
Proof.
  intros s Hu Ha Hruns. split; [by apply effect_refused |].
  pose proof (reachable_consistent pre) as Hs. fold s in Hs.
  destruct (rerun_cases (Some u) cb s) as (s' & Hstep & Hr2 & Hcase).
  destruct Hcase as [(Hc & _ & Hw & Hsub & Ht)
                    | (u0 & [= <-] & _ & ? & _)]; [| congruence].
  simpl in Ht. rewrite Hu in Ht.
  pose proof (consistent_rerun (Some u) cb s Hs) as Hs'.
  rewrite Hstep in Hs'. simpl in Hs'.
  exists s'. split_and!; try done.
  - by rewrite render_runs_effect.
  - rewrite Ht, !opens_app, cleanup_events_opens. by rewrite !app_nil_r.
  - by rewrite Hsub, run_cleanup_length.
  - intros post Hpost. rewrite (quiet_run post s' Hs' Hc Hpost).
    rewrite Ht, !all_dispatches_app, cleanup_events_dispatches.
    by rewrite !app_nil_r.
  - destruct (unmount_inert s' Hc) as (s'' & H1 & H2 & H3 & _). eauto.
Qed.

(** *** Empty endpoint *)

(** C5: on an absent or empty endpoint the effect body returns at once,
    leaving the state as it found it and no cleanup; so a render that runs
    it, in any state the component can reach, adds to the trace what the
    previous cleanup does and nothing else, creates no socket, stores no
    cleanup, lets no consumer be called until the next render, and a later
    teardown does nothing. *)
Theorem empty_endpoint_is_inert (pre : list input) (u : option string)
    (cb : option callback) :
  let s := final (run pre init) in
  falsy u = true →
  effect_runs u cb s →
  (∀ s0, useWs_effect u cb s0 = Normal None s0)
  ∧ ∃ s',
      step (Render u cb) s = Normal tt s'
      ∧ trace s' = trace s ++ cleanup_events s
      ∧ opens (trace s') = opens (trace s)
      ∧ subs s' = subs (run_cleanup s)
      ∧ length (subs s') = length (subs s)
      ∧ wsRef s' = wsRef s
      ∧ cleanup s' = None
      ∧ (∀ post, forallb (λ i, negb (is_render i)) post = true →
           all_dispatches (trace (final (run post s')))
           = all_dispatches (trace s))
      ∧ ∃ s'', step Unmount s' = Normal tt s''
               ∧ trace s'' = trace s' ∧ subs s'' = subs s'.
Proof.
  intros s Hu Hruns. split; [intros s0; by apply effect_falsy |].
  pose proof (reachable_consistent pre) as Hs. fold s in Hs.
  destruct (rerun_cases u cb s) as (s' & Hstep & Hr2 & Hcase).
  destruct Hcase as [(Hc & _ & Hw & Hsub & Ht)
                    | (u0 & -> & Hu0 & _)]; [| simpl in Hu; congruence].
  rewrite Hu, app_nil_r in Ht.
  pose proof (consistent_rerun u cb s Hs) as Hs'.
  rewrite Hstep in Hs'. simpl in Hs'.
  exists s'. split_and!; try done.
  - by rewrite render_runs_effect.
  - by rewrite Ht, !opens_app, cleanup_events_opens, app_nil_r.
  - by rewrite Hsub, run_cleanup_length.
  - intros post Hpost. rewrite (quiet_run post s' Hs' Hc Hpost).
    by rewrite Ht, !all_dispatches_app, cleanup_events_dispatches, app_nil_r.
  - destruct (unmount_inert s' Hc) as (s'' & H1 & H2 & H3 & _). eauto.
Qed.

(** *** Teardown *)

Lemma closable_after_close w s : closable w (ws_close w s) = false.
Proof.
  rewrite ws_close_eq. destruct (closable w s) eqn:Hc; [| done].
  unfold closable in *. simpl. rewrite list_lookup_alter_eq.
  by destruct (subs s !! w).
Qed.

Lemma closable_after_close_event w s : closable w (ws_close_event w s) = false.
Proof.
  unfold ws_close_event, closable.
  destruct (subs s !! w) as [sub |] eqn:Hs; [| by rewrite Hs].
  destruct (readyState sub) eqn:Hr; simpl;
    rewrite ?list_lookup_alter_eq, Hs; simpl; by rewrite ?Hr.
Qed.

(** Clearing [alive] a second time changes nothing. *)
Lemma set_alive_twice h (l : list subscription) :
  alter (set_alive false) h (alter (set_alive false) h l)
  = alter (set_alive false) h l.
Proof. rewrite list_alter_alter_eq. by apply list_alter_ext. Qed.

Lemma set_alive_after_set_readyState h w r (l : list subscription) :
  alter (set_alive false) h
    (alter (set_readyState r) w (alter (set_alive false) h l))
  = alter (set_readyState r) w (alter (set_alive false) h l).
Proof.
  apply list_eq. intros k.
  destruct (decide (h = k)) as [-> | Hh];
    [| by rewrite list_lookup_alter_ne].
  rewrite list_lookup_alter_eq.
  destruct (decide (w = k)) as [-> | Hw].
  - rewrite !list_lookup_alter_eq. by destruct (l !! k).
  - rewrite list_lookup_alter_ne, list_lookup_alter_eq by done.
    by destruct (l !! k).
Qed.

(** The teardown on a socket that can no longer be closed: one ignored
    [close()] call. *)
Lemma cleanup_fn_idle h w s :
  wsRef s = Some w → closable w s = false →
  cleanup_fn h s = log (CallClose w) (update_sub h (set_alive false) s).
Proof.
  intros Hw Hc. unfold cleanup_fn. simpl. rewrite Hw, ws_close_eq.
  by rewrite closable_set_alive, Hc.
Qed.

(** C6: the teardown of a subscription, run a second time, leaves the
    sockets, the references and React's bookkeeping as the first run left
    them and adds to the trace only the [close()] call the browser ignores
    on a socket already closing, so nothing with an effect;  run on a
    socket that can no longer be closed, it adds that same ignored call and
    no handshake;  a socket that received its [close] event is such a
    socket;  with no cleanup stored (empty endpoint) the teardown is the
    identity;  and unmounting returns normally, a second unmount changing
    nothing. *)
Theorem close_is_idempotent (h : nat) (s : hook) :
  let s1 := cleanup_fn h s in
  let s2 := cleanup_fn h s1 in
  (subs s2 = subs s1 ∧ wsRef s2 = wsRef s1 ∧ cleanup s2 = cleanup s1
   ∧ react s2 = react s1
   ∧ trace s2 = trace s1 ++ from_option (λ w, [CallClose w]) [] (wsRef s)
   ∧ List.filter effectful (trace s2) = List.filter effectful (trace s1))
  ∧ (∀ w, wsRef s = Some w → closable w s = false →
       cleanup_fn h s = log (CallClose w) (update_sub h (set_alive false) s))
  ∧ (∀ w, closable w (ws_close_event w s) = false)
  ∧ (cleanup s = None → run_cleanup s = s)
  ∧ ∃ s', step Unmount s = Normal tt s' ∧ step Unmount s' = Normal tt s'.
Proof.
  intros s1 s2. split; [| split_and!].
  - destruct (wsRef s) as [w |] eqn:Hw.
    + assert (Hs1 : s1 = ws_close w (update_sub h (set_alive false) s)).
      { unfold s1, cleanup_fn. simpl. by rewrite Hw. }
      assert (Hw1 : wsRef s1 = Some w).
      { rewrite Hs1.
        by destruct (ws_close_facts w (update_sub h (set_alive false) s))
          as (-> & _). }
      assert (Hc1 : closable w s1 = false).
      { rewrite Hs1. apply closable_after_close. }
      assert (Hsub : alter (set_alive false) h (subs s1) = subs s1).
      { rewrite Hs1, ws_close_eq, closable_set_alive.
        destruct (closable w s); simpl;
          [apply set_alive_after_set_readyState | apply set_alive_twice]. }
      unfold s2. rewrite (cleanup_fn_idle h w s1 Hw1 Hc1). simpl.
      split_and!; try done.
      rewrite List.filter_app. simpl. by rewrite app_nil_r.
    + assert (Hs1 : s1 = update_sub h (set_alive false) s).
      { unfold s1, cleanup_fn. simpl. by rewrite Hw. }
      unfold s2, cleanup_fn. rewrite Hs1. simpl. rewrite Hw. simpl.
      by rewrite set_alive_twice, app_nil_r.
  - intros w. apply cleanup_fn_idle.
  - intros w. apply closable_after_close_event.
  - intros Hc. unfold run_cleanup. by rewrite Hc.
  - simpl. unfold unmount. destruct (react s) eqn:Hr.
    + exists s. by rewrite Hr.
    + by exists (commit None Unmounted (run_cleanup s)).
    + exists s. by rewrite Hr.
Qed.

End ChannelFacts.

(** ** Worked examples in the sample environment *)

Section Examples.

Local Abbreviation run_sample :=
  (UseWs.run sample_parse sample_accepts sample_returns).
Local Abbreviation step_sample :=
  (UseWs.step sample_parse sample_accepts sample_returns).

(** One frame is dispatched, the view unmounts, a late frame is not. *)
Lemma no_dispatch_after_close_witness :
  dispatches 0
    (trace (final (run_sample
       ([Render (Some "ws://host/live") (Some 1); WsOpen 0; WsMessage 0 "1";
         Unmount] ++ [WsMessage 0 "2"; WsClose 0]) init)))
  = dispatches 0
      (trace (final (run_sample
         [Render (Some "ws://host/live") (Some 1); WsOpen 0; WsMessage 0 "1";
          Unmount] init)))
  ∧ length (dispatches 0
      (trace (final (run_sample
         ([Render (Some "ws://host/live") (Some 1); WsOpen 0; WsMessage 0 "1";
           Unmount] ++ [WsMessage 0 "2"; WsClose 0]) init))))
    ≤ frames_on 0
        [Render (Some "ws://host/live") (Some 1); WsOpen 0; WsMessage 0 "1";
         Unmount].
Proof.
  apply (no_dispatch_after_close sample_parse sample_accepts sample_returns).
  eexists. split; vm_compute; reflexivity.
Defined.

(** Frames [1], a malformed one, [2]: two consumer calls, in order. *)
Lemma frames_dispatched_in_order_witness :
  ∃ s',
    run_sample (WsMessage 0 <$> ["1"; "{oops"; "2"])
      (final (run_sample [Render (Some "ws://host/live") (Some 1)] init))
    = Normal tt s'
    ∧ dispatches 0 (trace s') = [(1, VNum 1); (1, VNum 2)].
Proof.
  destruct (frames_dispatched_in_order sample_parse sample_accepts
              sample_returns 0 1 ["1"; "{oops"; "2"]
              (final (run_sample [Render (Some "ws://host/live") (Some 1)] init)))
    as (s' & Hrun & _ & _ & _ & _ & _ & _ & Hd & _).
  - eexists. split_and!; vm_compute; reflexivity.
  - exists s'. split; [exact Hrun |]. rewrite Hd. vm_compute. reflexivity.
Defined.

(** C3, as stated, fails: the endpoint changes from one non-empty URL to
    another, which the constructor refuses; the first socket is closed and
    no socket is opened for the second URL. *)
Lemma endpoint_change_may_open_nothing :
  ¬ (∃ h2,
       opens (trace (final (run_sample
         [Render (Some "ws://host/live") (Some 1);
          Render (Some "not a url") (Some 1)] init)))
       = opens (trace (final (run_sample
           [Render (Some "ws://host/live") (Some 1)] init)))
         ++ [(h2, "not a url")]).
Proof. intros (h2 & H). vm_compute in H. discriminate H. Qed.

Lemma endpoint_change_resubscribes_witness :
  ∃ h1 s',
    step_sample (Render (Some "ws://b") (Some 1))
      (final (run_sample [Render (Some "ws://a") (Some 1); WsOpen 0] init))
    = Normal tt s'
    ∧ trace s' = [NetOpen 0 "ws://a"; ConsoleLog "ws open"]
                 ++ close_events h1
                      (final (run_sample
                         [Render (Some "ws://a") (Some 1); WsOpen 0] init))
                 ++ [NetOpen 1 "ws://b"].
Proof.
  destruct (endpoint_change_resubscribes sample_parse sample_accepts
              sample_returns [Render (Some "ws://a") (Some 1); WsOpen 0]
              "ws://a" "ws://b" (Some 1) (Some 1))
    as (h1 & s' & _ & Hstep & Ht & _);
    [reflexivity | discriminate | reflexivity | reflexivity | reflexivity
    | reflexivity |].
  exists h1, s'. split; [exact Hstep | exact Ht].
Defined.

Lemma construction_failure_is_contained_witness :
  ∃ s',
    step_sample (Render (Some "not a url") (Some 1))
      (final (run_sample [Render (Some "ws://a") (Some 1)] init))
    = Normal tt s'
    ∧ cleanup s' = None.
Proof.
  destruct (construction_failure_is_contained sample_parse sample_accepts
              sample_returns [Render (Some "ws://a") (Some 1)]
              "not a url" (Some 1))
    as (_ & s' & Hstep & _ & _ & _ & _ & Hc & _);
    [reflexivity | reflexivity | reflexivity |].
  exists s'. split; [exact Hstep | exact Hc].
Defined.

Lemma empty_endpoint_is_inert_witness :
  ∃ s',
    step_sample (Render (Some "") (Some 1)) init = Normal tt s'
    ∧ trace s' = [] ∧ subs s' = [].
Proof.
  destruct (empty_endpoint_is_inert sample_parse sample_accepts
              sample_returns [] (Some "") (Some 1))
    as (_ & s' & Hstep & Ht & _ & Hs & _);
    [reflexivity | exact I |].
  exists s'. split_and!; [exact Hstep | exact Ht | exact Hs].
Defined.

(** The server closes the socket, then the view unmounts: the teardown
    only issues a [close()] call that is ignored. *)
Lemma close_is_idempotent_witness :
  cleanup_fn 0
    (final (run_sample [Render (Some "ws://a") (Some 1); WsOpen 0; WsClose 0]
              init))
  = log (CallClose 0)
      (update_sub 0 (set_alive false)
         (final (run_sample
            [Render (Some "ws://a") (Some 1); WsOpen 0; WsClose 0] init))).
Proof.
  apply (proj1 (proj2 (close_is_idempotent sample_parse sample_accepts
                         sample_returns 0 _)) 0); reflexivity.
Defined.

End Examples.

(** ** More on the views: what they render and when rendering throws *)

Section ViewRendering.

(** A property read by name on a value that is not nullish: the field of an
    object, [undefined] on any other value (none of the names the views read
    is [length] or an index). *)
Lemma get_named (v : value) (k : string) :
  headed_by_digit k = false → k ≠ "length" →
  get v k = match v with
            | VUndefined | VNull => None
            | VObj o => Some (field o k)
            | _ => Some VUndefined
            end.
Proof.
  intros Hk Hl. apply String.eqb_neq in Hl.
  destruct v as [| | b | n | s | l | o]; simpl; try done;
    by rewrite Hl, index_props_named.
Qed.

Lemma students_row_obj (o : gmap string value) :
  Students.row (VObj o)
  = if coercible (field o "id") then Some (student_row o) else None.
Proof. done. Qed.

Lemma logs_row_obj (o : gmap string value) :
  Logs.row (VObj o)
  = if coercible (field o "entry_time") && coercible (field o "id")
    then Some (log_row o) else None.
Proof. done. Qed.

Lemma students_row_is_Some (s : value) :
  is_Some (Students.row s) ↔ student_ok s = true.
Proof.
  destruct s as [| | b | n | t | l | o];
    try (split; [by intros [? [=]] | done]);
    try (unfold Students.row; rewrite !get_named by done; simpl;
         split; [done | by eexists]).
  rewrite students_row_obj. simpl.
  destruct (coercible (field o "id")); split; try done;
    first [by eexists | by intros [? [=]]].
Qed.

Lemma logs_row_is_Some (l : value) :
  is_Some (Logs.row l) ↔ log_ok l = true.
Proof.
  destruct l as [| | b | n | t | l | o];
    try (split; [by intros [? [=]] | done]);
    try (unfold Logs.row; rewrite !get_named by done; simpl;
         split; [done | by eexists]).
  rewrite logs_row_obj. simpl.
  destruct (coercible (field o "entry_time") && coercible (field o "id"));
    split; try done; first [by eexists | by intros [? [=]]].
Qed.

(** Mapping a row function over an array returns exactly when it returns on
    every element. *)
Lemma mapM_is_Some_forallb (row : value → option node) (ok : value → bool)
    (l : list value) :
  (∀ x, is_Some (row x) ↔ ok x = true) →
  is_Some (mapM row l) ↔ forallb ok l = true.
Proof.
  intros Hrow. rewrite mapM_is_Some, forallb_forall, Forall_forall.
  split; intros H x Hx.
  - apply Hrow, H. by apply list_elem_of_In.
  - apply Hrow, H. by apply list_elem_of_In.
Qed.

Lemma mapM_rows_obj (row : value → option node)
    (total : gmap string value → node) (ok : gmap string value → bool)
    (os : list (gmap string value)) :
  (∀ o, row (VObj o) = if ok o then Some (total o) else None) →
  forallb ok os = true →
  mapM row (VObj <$> os) = Some (total <$> os).
Proof.
  intros Hrow Hok. apply mapM_Some, Forall2_fmap, Forall_Forall2_diag.
  apply Forall_forall. intros o Ho. rewrite Hrow.
  rewrite forallb_forall in Hok. by rewrite (Hok o) by by apply list_elem_of_In.
Qed.

Lemma students_render_is_Some (s : Students.state) :
  is_Some (Students.render s) ↔ array_of student_ok (Students.list_ s) = true.
Proof.
  unfold Students.render, array_of.
  destruct (Students.list_ s) as [| | b | n | t | l | o];
    try (split; [by intros [? [=]] | done]).
  rewrite <- (mapM_is_Some_forallb Students.row student_ok l
                students_row_is_Some).
  destruct (mapM Students.row l); simpl;
    split; try done; first [by eexists | by intros [? [=]]].
Qed.

Lemma logs_render_is_Some (s : Logs.state) :
  is_Some (Logs.render s) ↔ array_of log_ok (Logs.logs s) = true.
Proof.
  unfold Logs.render, array_of.
  destruct (Logs.logs s) as [| | b | n | t | l | o];
    try (split; [by intros [? [=]] | done]).
  rewrite <- (mapM_is_Some_forallb Logs.row log_ok l logs_row_is_Some).
  destruct (mapM Logs.row l); simpl;
    split; try done; first [by eexists | by intros [? [=]]].
Qed.

(** X1: after a successful roster response on a mounted view, the stored
    list is the body, or the empty array for a falsy body, and the view
    function returns its element tree exactly when that value is an array
    whose elements are neither [null] nor [undefined] and whose object
    elements have an [id] that converts to a string (the key of the row);
    any other truthy body is stored as it is and makes the function
    throw. *)
Theorem students_render_returns_iff (r : response) :
  let s := Students.settle (Fulfilled r) Students.mount in
  Students.list_ s = (if truthy (data r) then data r else VArr [])
  ∧ (is_Some (Students.render s)
     ↔ array_of student_ok (if truthy (data r) then data r else VArr [])
       = true).
Proof.
  intros s.
  assert (Hl : Students.list_ s = if truthy (data r) then data r else VArr [])
    by done.
  split; [done |]. by rewrite students_render_is_Some, Hl.
Qed.

(** An object body, a [null] row and an [id] that cannot be converted make
    the Students function throw; an empty body and plain rows do not. *)
Lemma students_render_returns_iff_witness :
  let render_of body :=
    Students.render
      (Students.settle (Fulfilled {| status := 200; data := body |})
         Students.mount) in
  ¬ is_Some (render_of (VObj {[ "error" := VStr "down" ]}))
  ∧ ¬ is_Some (render_of (VArr [VObj {[ "name" := VStr "Ada" ]}; VNull]))
  ∧ ¬ is_Some (render_of
                 (VArr [VObj {[ "id" := VObj {[ "toString" := VNum 1 ]} ]}]))
  ∧ is_Some (render_of (VStr ""))
  ∧ is_Some (render_of (VArr [VObj {[ "id" := VNum 1 ]}; VNum 2])).
Proof.
  cbv zeta. split_and!.
  - intros H.
    apply (proj2 (students_render_returns_iff
                    {| status := 200;
                       data := VObj {[ "error" := VStr "down" ]} |})) in H.
    discriminate H.
  - intros H.
    apply (proj2 (students_render_returns_iff
                    {| status := 200;
                       data := VArr [VObj {[ "name" := VStr "Ada" ]};
                                     VNull] |})) in H.
    discriminate H.
  - intros H.
    apply (proj2 (students_render_returns_iff
                    {| status := 200;
                       data := VArr [VObj {[ "id" := VObj {[ "toString"
                                                             := VNum 1 ]} ]}] |}))
      in H.
    discriminate H.
  - apply (proj2 (students_render_returns_iff
                    {| status := 200; data := VStr "" |})).
    reflexivity.
  - apply (proj2 (students_render_returns_iff
                    {| status := 200;
                       data := VArr [VObj {[ "id" := VNum 1 ]}; VNum 2] |})).
    reflexivity.
Defined.

(** X2: after a successful logs response on a mounted view, the view
    function returns its element tree exactly when the body is not an array
    (the empty list is stored instead) or is an array whose elements are
    neither [null] nor [undefined] and whose object elements have an
    [entry_time] and an [id] that convert to a primitive ([new Date] and the
    key of the row): the array guard does not cover the elements. *)
Theorem logs_render_returns_iff (r : response) :
  let s := Logs.settle (Fulfilled r) Logs.mount in
  is_Some (Logs.render s)
  ↔ Array_isArray (data r) = false ∨ array_of log_ok (data r) = true.
Proof.
  intros s. rewrite logs_render_is_Some.
  assert (Hl : Logs.logs s = if Array_isArray (data r) then data r else VArr [])
    by done.
  rewrite Hl. destruct (data r) as [| | b | n | t | l | o]; simpl;
    try (split; [by left | done]).
  split; [by right | by intros [? | ?]].
Qed.

(** An object body is replaced by the empty list; a [null] row, an
    [entry_time] or an [id] that cannot be converted make the Logs function
    throw. *)
Lemma logs_render_returns_iff_witness :
  let render_of body :=
    Logs.render
      (Logs.settle (Fulfilled {| status := 200; data := body |}) Logs.mount) in
  is_Some (render_of (VObj {[ "error" := VStr "down" ]}))
  ∧ ¬ is_Some (render_of (VArr [VNull]))
  ∧ ¬ is_Some (render_of
                 (VArr [VObj {[ "entry_time"
                                := VObj {[ "toString" := VNum 1 ]} ]}]))
  ∧ ¬ is_Some (render_of
                 (VArr [VObj {[ "id" := VArr [VObj {[ "toString"
                                                      := VNull ]}] ]}]))
  ∧ is_Some (render_of
               (VArr [VObj {[ "entry_time" := VStr "2024-01-01T08:00:00Z" ]}])).
Proof.
  cbv zeta. split_and!.
  - apply (proj2 (logs_render_returns_iff
                    {| status := 200;
                       data := VObj {[ "error" := VStr "down" ]} |})).
    by left.
  - intros H.
    apply (proj1 (logs_render_returns_iff
                    {| status := 200; data := VArr [VNull] |})) in H.
    by destruct H.
  - intros H.
    apply (proj1 (logs_render_returns_iff
                    {| status := 200;
                       data := VArr [VObj {[ "entry_time"
                                             := VObj {[ "toString"
                                                        := VNum 1 ]} ]}] |}))
      in H.
    by destruct H.
  - intros H.
    apply (proj1 (logs_render_returns_iff
                    {| status := 200;
                       data := VArr [VObj {[ "id"
                                             := VArr [VObj {[ "toString"
                                                              := VNull ]}] ]}] |}))
      in H.
    by destruct H.
  - apply (proj2 (logs_render_returns_iff
                    {| status := 200;
                       data := VArr [VObj {[ "entry_time"
                                             := VStr "2024-01-01T08:00:00Z" ]}] |})).
    by right.
Defined.

(** X3: for a roster response whose body is an array of objects, each with
    an [id] that converts to a string, the tree the view function returns
    has one row per object, in the order of the response, each with the
    object's [name], [roll] and [email] (a dash for a falsy email), and the
    empty-state message exactly when the array is empty; neither the loading
    line nor an error panel is left. *)
Theorem students_rows_in_order (r : response)
    (os : list (gmap string value)) :
  data r = VArr (VObj <$> os) →
  forallb (λ o, coercible (field o "id")) os = true →
  Students.render (Students.settle (Fulfilled r) Students.mount)
  = Some (El "div" ""
            [El "div" "h2" [Txt "Students"];
             El "div" "card"
               [El "div" "list"
                  ((student_row <$> os)
                   ++ when (Nat.eqb (length os) 0)
                        (El "div" "kv" [Txt "No students yet"]))]]).
Proof.
  intros Hd Hok. unfold Students.render. simpl. rewrite Hd. simpl.
  rewrite (mapM_rows_obj Students.row student_row
             (λ o, coercible (field o "id")) os students_row_obj Hok).
  simpl. by rewrite length_fmap, !andb_true_r.
Qed.

(** Ada before Bob, as in the response; Bob has no email. *)
Lemma students_rows_in_order_witness :
  Students.render
    (Students.settle
       (Fulfilled
          {| status := 200;
             data := VArr [VObj {[ "id" := VNum 1; "name" := VStr "Ada";
                                   "roll" := VStr "S1";
                                   "email" := VStr "ada@example.org" ]};
                           VObj {[ "id" := VNum 2; "name" := VStr "Bob";
                                   "roll" := VStr "S2" ]}] |})
       Students.mount)
  = Some (El "div" ""
            [El "div" "h2" [Txt "Students"];
             El "div" "card"
               [El "div" "list"
                  [El "div" "log"
                     [El "div" ""
                        [El "div" "" [Val (VStr "Ada")];
                         El "div" "kv"
                           [Val (VStr "S1"); Txt " · ";
                            Val (VStr "ada@example.org")]]];
                   El "div" "log"
                     [El "div" ""
                        [El "div" "" [Val (VStr "Bob")];
                         El "div" "kv"
                           [Val (VStr "S2"); Txt " · "; Val (VStr "—")]]]]]]).
Proof.
  exact (students_rows_in_order
           {| status := 200;
              data := VArr [VObj {[ "id" := VNum 1; "name" := VStr "Ada";
                                    "roll" := VStr "S1";
                                    "email" := VStr "ada@example.org" ]};
                            VObj {[ "id" := VNum 2; "name" := VStr "Bob";
                                    "roll" := VStr "S2" ]}] |}
           [{[ "id" := VNum 1; "name" := VStr "Ada"; "roll" := VStr "S1";
               "email" := VStr "ada@example.org" ]};
            {[ "id" := VNum 2; "name" := VStr "Bob"; "roll" := VStr "S2" ]}]
           eq_refl eq_refl).
Defined.

(** X4: for a logs response whose body is an array of objects, each with an
    [entry_time] and an [id] that convert to a primitive, the tree the view
    function returns has one row per object, in the order of the response,
    each with the student's name (the roll when the name is falsy), the entry
    time and "Present" or "Absent" after the truthiness of [present], and
    the empty-state message exactly when the array is empty. *)
Theorem logs_rows_in_order (r : response) (os : list (gmap string value)) :
  data r = VArr (VObj <$> os) →
  forallb (λ o, coercible (field o "entry_time") && coercible (field o "id"))
    os = true →
  Logs.render (Logs.settle (Fulfilled r) Logs.mount)
  = Some (El "div" ""
            [El "div" "h2" [Txt "Attendance Logs"];
             El "div" "card"
               [El "div" "list"
                  ((log_row <$> os)
                   ++ when (Nat.eqb (length os) 0) Logs.empty_message)]]).
Proof.
  intros Hd Hok. unfold Logs.render. simpl. unfold Logs.on_then. simpl.
  rewrite Hd. simpl.
  rewrite (mapM_rows_obj Logs.row log_row
             (λ o, coercible (field o "entry_time") && coercible (field o "id"))
             os logs_row_obj Hok).
  simpl. by rewrite length_fmap, !andb_true_r.
Qed.

(** An entry with a name and present, then one with a roll only and
    absent, in that order. *)
Lemma logs_rows_in_order_witness :
  Logs.render
    (Logs.settle
       (Fulfilled
          {| status := 200;
             data := VArr [VObj {[ "id" := VNum 7;
                                   "student_name" := VStr "Ada";
                                   "student_roll" := VStr "S1";
                                   "entry_time" := VStr "2024-01-01T08:00:00Z";
                                   "present" := VBool true ]};
                           VObj {[ "id" := VNum 8;
                                   "student_roll" := VStr "S2";
                                   "entry_time" := VStr "2024-01-01T08:05:00Z";
                                   "present" := VBool false ]}] |})
       Logs.mount)
  = Some (El "div" ""
            [El "div" "h2" [Txt "Attendance Logs"];
             El "div" "card"
               [El "div" "list"
                  [El "div" "log"
                     [El "div" ""
                        [El "div" "log-name" [Val (VStr "Ada")];
                         El "div" "log-time"
                           [DateText (VStr "2024-01-01T08:00:00Z")]];
                      El "div" "" [Txt "Present"]];
                   El "div" "log"
                     [El "div" ""
                        [El "div" "log-name" [Val (VStr "S2")];
                         El "div" "log-time"
                           [DateText (VStr "2024-01-01T08:05:00Z")]];
                      El "div" "" [Txt "Absent"]]]]]).
Proof.
  exact (logs_rows_in_order
           {| status := 200;
              data := VArr [VObj {[ "id" := VNum 7;
                                    "student_name" := VStr "Ada";
                                    "student_roll" := VStr "S1";
                                    "entry_time" := VStr "2024-01-01T08:00:00Z";
                                    "present" := VBool true ]};
                            VObj {[ "id" := VNum 8;
                                    "student_roll" := VStr "S2";
                                    "entry_time" := VStr "2024-01-01T08:05:00Z";
                                    "present" := VBool false ]}] |}
           [{[ "id" := VNum 7; "student_name" := VStr "Ada";
               "student_roll" := VStr "S1";
               "entry_time" := VStr "2024-01-01T08:00:00Z";
               "present" := VBool true ]};
            {[ "id" := VNum 8; "student_roll" := VStr "S2";
               "entry_time" := VStr "2024-01-01T08:05:00Z";
               "present" := VBool false ]}]
           eq_refl eq_refl).
Defined.

(** X5: once a view is unmounted, the settlement of its request changes
    nothing on the roster and logs views; on the summary view it changes no
    cell either, but a rejection is still logged, the warning coming before
    the [mounted] test. *)
Theorem unmounted_views_ignore_settlement (o : settled) :
  (∀ s, Students.settle o (Students.unmount s) = Students.unmount s)
  ∧ (∀ s, Logs.settle o (Logs.unmount s) = Logs.unmount s)
  ∧ (∀ s,
       let s' := Dashboard.settle o (Dashboard.unmount s) in
       Dashboard.stats s' = Dashboard.stats s
       ∧ Dashboard.loading s' = Dashboard.loading s
       ∧ Dashboard.err s' = Dashboard.err s
       ∧ Dashboard.mounted s' = false
       ∧ Dashboard.console s'
         = Dashboard.console s
           ++ match o with
              | Fulfilled _ => []
              | Rejected e =>
                  [Warn "Dashboard summary not available:"
                     (if truthy (message e) then ArgVal (message e)
                      else ArgErr e)]
              end).
Proof.
  split_and!; intros s; destruct o as [r | e]; simpl; try done.
  by rewrite app_nil_r.
Qed.

(** The statistics keep both fields, and the stored error is [null] or
    truthy, after every callback. *)
Lemma dashboard_step_invariant (s : Dashboard.state) (ev : dashboard_event) :
  is_Some (Dashboard.stats s !! "students")
  ∧ is_Some (Dashboard.stats s !! "todays")
  ∧ (Dashboard.err s = VNull ∨ truthy (Dashboard.err s) = true) →
  is_Some (Dashboard.stats (dashboard_step s ev) !! "students")
  ∧ is_Some (Dashboard.stats (dashboard_step s ev) !! "todays")
  ∧ (Dashboard.err (dashboard_step s ev) = VNull
     ∨ truthy (Dashboard.err (dashboard_step s ev)) = true).
Proof.
  intros Hs.
  assert (Hthen : ∀ r s0,
    is_Some (Dashboard.stats s0 !! "students")
    ∧ is_Some (Dashboard.stats s0 !! "todays")
    ∧ (Dashboard.err s0 = VNull ∨ truthy (Dashboard.err s0) = true) →
    is_Some (Dashboard.stats (Dashboard.on_then r s0) !! "students")
    ∧ is_Some (Dashboard.stats (Dashboard.on_then r s0) !! "todays")
    ∧ (Dashboard.err (Dashboard.on_then r s0) = VNull
       ∨ truthy (Dashboard.err (Dashboard.on_then r s0)) = true)).
  { intros r s0 (H1 & H2 & H3). unfold Dashboard.on_then.
    destruct (Dashboard.mounted s0 && truthy (data r)); simpl; [| done].
    unfold Object_assign. rewrite !lookup_union.
    split_and!; [| | done].
    - destruct (delete "__proto__" (own_props (data r)) !! "students");
        by eexists.
    - destruct (delete "__proto__" (own_props (data r)) !! "todays");
        by eexists. }
  assert (Hcatch : ∀ e s0,
    is_Some (Dashboard.stats s0 !! "students")
    ∧ is_Some (Dashboard.stats s0 !! "todays")
    ∧ (Dashboard.err s0 = VNull ∨ truthy (Dashboard.err s0) = true) →
    is_Some (Dashboard.stats (Dashboard.on_catch e s0) !! "students")
    ∧ is_Some (Dashboard.stats (Dashboard.on_catch e s0) !! "todays")
    ∧ (Dashboard.err (Dashboard.on_catch e s0) = VNull
       ∨ truthy (Dashboard.err (Dashboard.on_catch e s0)) = true)).
  { intros e s0 (H1 & H2 & H3). unfold Dashboard.on_catch.
    destruct (Dashboard.mounted s0); simpl; [| done].
    split_and!; [done | done |]. right. unfold or_else.
    by destruct (truthy (message e)) eqn:Hm. }
  assert (Hfin : ∀ s0,
    is_Some (Dashboard.stats s0 !! "students")
    ∧ is_Some (Dashboard.stats s0 !! "todays")
    ∧ (Dashboard.err s0 = VNull ∨ truthy (Dashboard.err s0) = true) →
    is_Some (Dashboard.stats (Dashboard.on_finally s0) !! "students")
    ∧ is_Some (Dashboard.stats (Dashboard.on_finally s0) !! "todays")
    ∧ (Dashboard.err (Dashboard.on_finally s0) = VNull
       ∨ truthy (Dashboard.err (Dashboard.on_finally s0)) = true)).
  { intros s0 H0. unfold Dashboard.on_finally.
    by destruct (Dashboard.mounted s0). }
  destruct ev as [[r | e] | r | e | |]; simpl; auto.
Qed.

(** X6: whatever callbacks of the summary view run, in whatever order, the
    statistics object keeps a [students] and a [todays] field (a response
    can replace their values, never remove them), and the stored error is
    [null] or a truthy message, so that a handled rejection always shows. *)
Theorem dashboard_keeps_its_fields (evs : list dashboard_event) :
  let s := dashboard_run evs in
  is_Some (Dashboard.stats s !! "students")
  ∧ is_Some (Dashboard.stats s !! "todays")
  ∧ (Dashboard.err s = VNull ∨ truthy (Dashboard.err s) = true).
Proof.
  unfold dashboard_run.
  assert (H0 : is_Some (Dashboard.stats Dashboard.mount !! "students")
               ∧ is_Some (Dashboard.stats Dashboard.mount !! "todays")
               ∧ (Dashboard.err Dashboard.mount = VNull
                  ∨ truthy (Dashboard.err Dashboard.mount) = true)).
  { split_and!; [by eexists | by eexists | by left]. }
  revert H0. generalize Dashboard.mount.
  induction evs as [| ev evs IH]; intros s Hs; [done |].
  simpl. by apply IH, dashboard_step_invariant.
Qed.

(** X15: whatever the environment holds, the base URL of the api client is
    never the empty string: a value of [REACT_APP_BACKEND] that is set and
    not empty is used as it is, and the loopback address is used when the
    variable is unset or empty. *)
Theorem BACK_never_empty (env : gmap string string) :
  Api.BACK env ≠ ""
  ∧ (∀ u, env !! "REACT_APP_BACKEND" = Some u → u ≠ "" → Api.BACK env = u)
  ∧ (env !! "REACT_APP_BACKEND" = None ∨ env !! "REACT_APP_BACKEND" = Some "" →
     Api.BACK env = "http://127.0.0.1:8000").
Proof.
  unfold Api.BACK.
  destruct (env !! "REACT_APP_BACKEND") as [u |].
  - destruct (String.eqb_spec u "") as [-> | Hu].
    + split_and!; [done | by intros u [= <-] | done].
    + split_and!; [done | by intros u' [= <-] |].
      intros [[=] | [= ->]]. done.
  - split_and!; [done | by intros u [=] | done].
Qed.

Lemma BACK_never_empty_witness :
  Api.BACK {[ "REACT_APP_BACKEND" := "https://attendance.example.org" ]}
  = "https://attendance.example.org"
  ∧ Api.BACK {[ "REACT_APP_BACKEND" := ""; "NODE_ENV" := "production" ]}
    = "http://127.0.0.1:8000".
Proof.
  split.
  - apply (proj1 (proj2 (BACK_never_empty
               {[ "REACT_APP_BACKEND" := "https://attendance.example.org" ]})));
      [reflexivity | discriminate].
  - apply (proj2 (proj2 (BACK_never_empty
               {[ "REACT_APP_BACKEND" := ""; "NODE_ENV" := "production" ]}))).
    right. reflexivity.
Defined.

End ViewRendering.

(** ** More on the channel: what holds in every state the hook can reach *)

Section ChannelInvariants.

Variable JSON_parse : string → option value.
Variable WebSocket_accepts : string → bool.
Variable consumer_returns : callback → value → bool.

Local Abbreviation step := (step JSON_parse WebSocket_accepts consumer_returns).
Local Abbreviation run := (run JSON_parse WebSocket_accepts consumer_returns).
Local Abbreviation consistent := (consistent WebSocket_accepts).

(** X7: in every state the component can reach at most one subscription is
    alive; it is the one whose cleanup React holds and [wsRef.current]
    points to, and it was made for the url and the consumer of the last
    effect run. *)
Theorem at_most_one_live (ins : list input) (h : nat) :
  let s := final (run ins init) in
  alive_map s !! h = Some true →
  (∀ h', alive_map s !! h' = Some true → h' = h)
  ∧ cleanup s = Some h ∧ wsRef s = Some h
  ∧ ∃ u cb, bindings s !! h = Some (u, cb) ∧ react s = Mounted (Some u) cb.
Proof.
  intros s Hh.
  pose proof (reachable_consistent JSON_parse WebSocket_accepts
                consumer_returns ins) as Hs. fold s in Hs.
  pose proof (alive_is_current _ _ Hs h Hh) as Hc.
  destruct (current_is_alive _ _ Hs h Hc) as (Hw & _ & Hb).
  split_and!; try done.
  intros h' Hh'. apply (alive_is_current _ _ Hs) in Hh'. congruence.
Qed.

(** X8: in every state the component can reach, [close()] has been called
    at most once on any socket, and exactly once on a socket precisely when
    the cleanup of its subscription has run: never on a live one, never
    twice. *)
Theorem close_called_at_most_once (ins : list input) (h : nat) :
  let s := final (run ins init) in
  close_calls h (trace s) ≤ 1
  ∧ (close_calls h (trace s) = 1 ↔ closed h s).
Proof.
  intros s.
  pose proof (reachable_consistent JSON_parse WebSocket_accepts
                consumer_returns ins) as Hs. fold s in Hs.
  rewrite (close_once _ _ Hs h), closed_alive_map.
  destruct (alive_map s !! h) as [[|] |]; split; try lia; try done;
    split; intros; done.
Qed.

Lemma no_cleanup_none_alive s :
  consistent s → cleanup s = None → Forall (λ b, b = false) (alive_map s).
Proof.
  intros Hs Hc. apply Forall_lookup. intros i [|] Hi; [| done].
  apply (alive_is_current _ _ Hs) in Hi. congruence.
Qed.

Lemma not_mounted_no_cleanup s :
  consistent s → (∀ u cb, react s ≠ Mounted u cb) → cleanup s = None.
Proof.
  intros Hs Hr. destruct (cleanup s) as [h |] eqn:Hc; [| done].
  destruct (current_is_alive _ _ Hs h Hc) as (_ & _ & u & cb & _ & Hm).
  by destruct (Hr (Some u) cb).
Qed.

(** X9: when the component unmounts, whatever happened before, no
    subscription is left alive, no cleanup is left stored, and [close()] has
    been called exactly once on every socket the hook ever created: none is
    leaked. *)
Theorem unmount_closes_every_socket (ins : list input) :
  let s := final (run (ins ++ [Unmount]) init) in
  Forall (λ b, b = false) (alive_map s)
  ∧ cleanup s = None
  ∧ ∀ h, close_calls h (trace s)
         = if decide (h < length (subs s)) then 1 else 0.
Proof.
  intros s.
  pose proof (reachable_consistent JSON_parse WebSocket_accepts
                consumer_returns (ins ++ [Unmount])) as Hs. fold s in Hs.
  pose proof (reachable_consistent JSON_parse WebSocket_accepts
                consumer_returns ins) as Hs0.
  assert (Hc : cleanup s = None).
  { unfold s. rewrite run_app, run_cons. simpl. unfold unmount.
    destruct (react (final (run ins init))) eqn:Hr; simpl; [| done |];
      apply not_mounted_no_cleanup; try done; intros u cb; congruence. }
  pose proof (no_cleanup_none_alive s Hs Hc) as Hall.
  split_and!; [done | done |].
  intros h. rewrite (close_once _ _ Hs h). case_decide as Hlt.
  - destruct (lookup_lt_is_Some_2 (alive_map s) h) as (b & Hb).
    { unfold alive_map. by rewrite length_fmap. }
    rewrite Hb. rewrite Forall_lookup in Hall. by rewrite (Hall h b Hb).
  - rewrite lookup_ge_None_2; [done |].
    unfold alive_map. rewrite length_fmap. lia.
Qed.

Lemma unmounted_step i s :
  consistent s → react s = Unmounted →
  undisturbed s (final (step i s))
  ∧ all_dispatches (trace (final (step i s))) = all_dispatches (trace s).
Proof.
  intros Hs Hr.
  assert (Hc : cleanup s = None).
  { apply not_mounted_no_cleanup; [done |]. intros u cb. congruence. }
  destruct i as [u cb | | h | h p | h | h].
  - simpl. unfold render. rewrite Hr. split; [apply undisturbed_refl | done].
  - simpl. unfold unmount. rewrite Hr. split; [apply undisturbed_refl | done].
  - split; [by apply transport_undisturbed |].
    by apply (quiet_step JSON_parse WebSocket_accepts consumer_returns
                (WsOpen h) s Hs Hc).
  - split; [by apply transport_undisturbed |].
    by apply (quiet_step JSON_parse WebSocket_accepts consumer_returns
                (WsMessage h p) s Hs Hc).
  - split; [by apply transport_undisturbed |].
    by apply (quiet_step JSON_parse WebSocket_accepts consumer_returns
                (WsError h) s Hs Hc).
  - split; [by apply transport_undisturbed |].
    by apply (quiet_step JSON_parse WebSocket_accepts consumer_returns
                (WsClose h) s Hs Hc).
Qed.

Lemma unmounted_run post s :
  consistent s → react s = Unmounted →
  undisturbed s (final (run post s))
  ∧ all_dispatches (trace (final (run post s))) = all_dispatches (trace s).
Proof.
  revert s. induction post as [| i post IH]; intros s Hs Hr.
  - split; [apply undisturbed_refl | done].
  - rewrite run_cons. destruct (unmounted_step i s Hs Hr) as (Hu & Hd).
    destruct (IH (final (step i s))) as (Hu' & Hd').
    + by apply consistent_step.
    + destruct Hu as (_ & _ & -> & _). done.
    + split; [by eapply undisturbed_trans | congruence].
Qed.

(** X10: once the component has unmounted, nothing that arrives later, be it
    frames, transport events or stray renders, calls a consumer, opens a
    socket or calls [close()] again. *)
Theorem nothing_after_unmount (ins post : list input) :
  let s := final (run ins init) in
  let s' := final (run post s) in
  react s = Unmounted →
  all_dispatches (trace s') = all_dispatches (trace s)
  ∧ opens (trace s') = opens (trace s)
  ∧ (∀ h, close_calls h (trace s') = close_calls h (trace s))
  ∧ length (subs s') = length (subs s)
  ∧ react s' = Unmounted.
Proof.
  intros s s' Hr.
  pose proof (reachable_consistent JSON_parse WebSocket_accepts
                consumer_returns ins) as Hs. fold s in Hs.
  destruct (unmounted_run post s Hs Hr)
    as ((_ & _ & Hr' & _ & Hb & Hcc & Ho) & Hd).
  fold s' in Hr', Hb, Hcc, Ho, Hd.
  split_and!; try done; [| congruence].
  apply (f_equal length) in Hb. unfold bindings in Hb.
  by rewrite !length_fmap in Hb.
Qed.

Lemma transport_run post s :
  forallb is_transport post = true → undisturbed s (final (run post s)).
Proof.
  revert s. induction post as [| i post IH]; intros s Hp;
    [apply undisturbed_refl |].
  simpl in Hp. apply andb_prop in Hp as [Hi Hp].
  rewrite run_cons. eapply undisturbed_trans; [| by apply IH].
  apply transport_undisturbed; by destruct i.
Qed.

(** X11: transport events alone (open, message, error, close, in any number
    and order, from any state) never make the hook open a socket, call
    [close()], or change [wsRef], the stored cleanup or any [alive] flag:
    after an error or a close there is no reconnection. *)
Theorem transport_never_reconnects (post : list input) (s : hook) :
  forallb is_transport post = true →
  let s' := final (run post s) in
  opens (trace s') = opens (trace s)
  ∧ (∀ h, close_calls h (trace s') = close_calls h (trace s))
  ∧ length (subs s') = length (subs s)
  ∧ wsRef s' = wsRef s ∧ cleanup s' = cleanup s ∧ react s' = react s
  ∧ alive_map s' = alive_map s.
Proof.
  intros Hp s'.
  destruct (transport_run post s Hp) as (Hw & Hc & Hr & Ha & Hb & Hcc & Ho).
  fold s' in Hw, Hc, Hr, Ha, Hb, Hcc, Ho.
  split_and!; try done.
  apply (f_equal length) in Hb. unfold bindings in Hb.
  by rewrite !length_fmap in Hb.
Qed.

(** X12: a render re-subscribes exactly when a dependency changed.  With the
    url and the consumer of the last effect run it does nothing at all; with
    the same url and another consumer it closes the current socket and opens
    a new one to that same url, bound to the new consumer. *)
Theorem consumer_change_reconnects (pre : list input) (U : string)
    (cb1 cb2 : option callback) :
  let s := final (run pre init) in
  react s = Mounted (Some U) cb1 →
  String.eqb U "" = false → WebSocket_accepts U = true →
  cb2 ≠ cb1 →
  step (Render (Some U) cb1) s = Normal tt s
  ∧ ∃ h1 s',
      let h2 := length (subs s) in
      wsRef s = Some h1 ∧ bindings s !! h1 = Some (U, cb1)
      ∧ step (Render (Some U) cb2) s = Normal tt s'
      ∧ trace s' = trace s ++ close_events h1 s ++ [NetOpen h2 U]
      ∧ closed h1 s'
      ∧ bindings s' !! h2 = Some (U, cb2)
      ∧ alive_map s' !! h2 = Some true
      ∧ wsRef s' = Some h2 ∧ cleanup s' = Some h2.
Proof.
  intros s Hr HU Ha Hne.
  pose proof (reachable_consistent JSON_parse WebSocket_accepts
                consumer_returns pre) as Hs. fold s in Hs.
  split.
  { simpl. unfold render, same_deps. rewrite Hr.
    by rewrite !bool_decide_eq_true_2. }
  destruct (current_exists _ _ Hs U cb1 Hr HU Ha) as (h1 & Hc).
  destruct (current_is_alive _ _ Hs h1 Hc) as (Hw & Hal & u & cb & Hb & Hr').
  rewrite Hr in Hr'. injection Hr' as <- <-.
  destruct (run_cleanup_facts s) as (_ & _ & _ & Hca & Hcb & _).
  rewrite Hc in Hca.
  assert (Hruns : effect_runs (Some U) cb2 s).
  { unfold effect_runs, same_deps. rewrite Hr.
    rewrite (bool_decide_eq_false_2 (cb2 = cb1)) by done.
    by rewrite andb_false_r. }
  destruct (rerun_cases WebSocket_accepts (Some U) cb2 s)
    as (s' & Hstep & _ & Hcase).
  destruct Hcase as [(_ & [Hf | (u0 & [= <-] & Hno)] & _)
                    | (u0 & [= <-] & _ & _ & Hc' & Hw' & Hsub & Ht)];
    [simpl in Hf; congruence | congruence |].
  assert (Hce : cleanup_events s = close_events h1 s)
    by (unfold cleanup_events; by rewrite Hc, Hw).
  rewrite Hce in Ht.
  assert (Hlen : length (subs (run_cleanup s)) = length (subs s))
    by apply run_cleanup_length.
  exists h1, s'. cbv zeta. split_and!; try done.
  - by rewrite (render_runs_effect JSON_parse WebSocket_accepts
                  consumer_returns).
  - apply closed_alive_map. unfold alive_map in *. rewrite Hsub, fmap_app.
    apply lookup_app_l_Some. by rewrite Hca, list_lookup_alter_eq, Hal.
  - unfold bindings. rewrite Hsub, fmap_app.
    apply list_lookup_middle. by rewrite length_fmap.
  - unfold alive_map. rewrite Hsub, fmap_app.
    apply list_lookup_middle. by rewrite length_fmap.
Qed.

(** X13: on a subscription that has no consumer, or whose cleanup has run,
    frames are still parsed: a sequence of frames returns normally, logs one
    ["ws parse"] error per malformed frame, in order, and does nothing else;
    well-formed frames leave no trace. *)
Theorem frames_without_consumer_only_log (h : nat) (frames : list string)
    (s : hook) :
  is_Some (subs s !! h) →
  (∀ sub cb, subs s !! h = Some sub → onMsg sub = Some cb → alive sub = false) →
  run (WsMessage h <$> frames) s
  = Normal tt
      {| subs := subs s; wsRef := wsRef s; cleanup := cleanup s;
         react := react s;
         trace := trace s
                  ++ flat_map (λ p, match JSON_parse p with
                                    | Some _ => []
                                    | None => [ConsoleError "ws parse"]
                                    end) frames |}.
Proof.
  intros [sub Hsub] Hdead. revert s Hsub Hdead.
  induction frames as [| p frames IH]; intros s Hsub Hdead.
  - simpl. rewrite app_nil_r. by destruct s.
  - rewrite fmap_cons. simpl. unfold mbind, js_bind, bind.
    rewrite ws_message_event_eq, Hsub.
    destruct (JSON_parse p) as [j |] eqn:Hp.
    + assert (Hsame :
        match onMsg sub with
        | Some cb =>
            if alive sub
            then if consumer_returns cb j
                 then log (Dispatch h cb j) s
                 else log (ConsoleError "ws parse") (log (Dispatch h cb j) s)
            else s
        | None => s
        end = s).
      { destruct (onMsg sub) as [cb |] eqn:Hc; [| done].
        by rewrite (Hdead sub cb Hsub Hc). }
      rewrite Hsame. by apply IH.
    + rewrite (IH (log (ConsoleError "ws parse") s)) by done.
      simpl. by rewrite <- app_assoc.
Qed.

Lemma tracks_latest_step i s :
  tracks_latest s → tracks_latest (final (step i s)).
Proof.
  unfold tracks_latest. intros Hs.
  assert (Hund : ∀ s', undisturbed s s' →
            wsRef s' = match length (subs s') with 0 => None | S n => Some n end).
  { intros s' (Hw & _ & _ & _ & Hb & _).
    apply (f_equal length) in Hb. unfold bindings in Hb.
    rewrite !length_fmap in Hb. by rewrite Hw, Hb. }
  assert (Hrerun : ∀ u cb,
    wsRef (final (rerun WebSocket_accepts u cb s))
    = match length (subs (final (rerun WebSocket_accepts u cb s))) with
      | 0 => None | S n => Some n end).
  { intros u cb.
    destruct (rerun_cases WebSocket_accepts u cb s) as (s' & -> & _ & Hcase).
    simpl.
    destruct Hcase as [(_ & _ & -> & -> & _)
                      | (u0 & _ & _ & _ & _ & -> & -> & _)].
    - by rewrite run_cleanup_length.
    - by rewrite length_app, run_cleanup_length, Nat.add_1_r. }
  destruct i as [u cb | | h | h p | h | h].
  - simpl. unfold render. destruct (react s) as [| u' cb' |]; [done | | done].
    by destruct (same_deps u u' cb cb').
  - simpl. unfold unmount. destruct (react s); try done. simpl.
    destruct (run_cleanup_facts s) as (-> & _). by rewrite run_cleanup_length.
  - by apply Hund, transport_undisturbed.
  - by apply Hund, transport_undisturbed.
  - by apply Hund, transport_undisturbed.
  - by apply Hund, transport_undisturbed.
Qed.

(** X14: [wsRef.current] is null until the hook creates its first socket and
    from then on always refers to the socket created last; a cleanup, an
    empty url or a refused url leave it pointing at that socket, closed or
    not, and never reset it. *)
Theorem wsRef_tracks_latest_socket (ins : list input) :
  let s := final (run ins init) in
  wsRef s = match length (subs s) with 0 => None | S n => Some n end.
Proof.
  cbv zeta. change (tracks_latest (final (run ins init))).
  assert (H0 : tracks_latest init) by done.
  revert H0. generalize init.
  induction ins as [| i ins IH]; intros s Hs; [done |].
  rewrite run_cons. by apply IH, tracks_latest_step.
Qed.

Lemma delivery_genuine i s h cb j :
  (h, cb, j) ∈ delivery JSON_parse i s →
  (∃ u, bindings s !! h = Some (u, Some cb)) ∧ ∃ p, JSON_parse p = Some j.
Proof.
  unfold delivery. destruct i as [| | | k p | |];
    try (intros Hin; by apply elem_of_nil in Hin).
  destruct (subs s !! k) as [sub |] eqn:Hk;
    [| intros Hin; by apply elem_of_nil in Hin].
  destruct (JSON_parse p) as [j' |] eqn:Hp;
    [| intros Hin; by apply elem_of_nil in Hin].
  destruct (onMsg sub) as [cb' |] eqn:Hc;
    [| intros Hin; by apply elem_of_nil in Hin].
  destruct (alive sub); [| intros Hin; by apply elem_of_nil in Hin].
  intros Hin. apply list_elem_of_singleton in Hin. injection Hin as -> -> ->.
  split; [| by exists p]. exists (url sub).
  unfold bindings. by rewrite list_lookup_fmap, Hk, <- Hc.
Qed.

Lemma genuine_run ins s :
  (∀ h cb j, (h, cb, j) ∈ all_dispatches (trace s) →
     (∃ u, bindings s !! h = Some (u, Some cb)) ∧ ∃ p, JSON_parse p = Some j) →
  ∀ h cb j, (h, cb, j) ∈ all_dispatches (trace (final (run ins s))) →
    (∃ u, bindings (final (run ins s)) !! h = Some (u, Some cb))
    ∧ ∃ p, JSON_parse p = Some j.
Proof.
  revert s. induction ins as [| i ins IH]; intros s Hs; [done |].
  rewrite run_cons. apply IH. intros h cb j Hin.
  rewrite step_dispatches in Hin. apply elem_of_app in Hin.
  assert (Hold : (∃ u, bindings s !! h = Some (u, Some cb))
                 ∧ ∃ p, JSON_parse p = Some j).
  { destruct Hin as [Hin | Hin]; [by apply Hs | by eapply delivery_genuine]. }
  destruct Hold as ((u & Hb) & Hp). split; [| done].
  exists u. by apply bindings_step.
Qed.

(** X16: every consumer call the hook ever made was made with a value
    [JSON.parse] returned for some payload, to the consumer the subscription
    was created with: no call with anything unparsed, none to another
    render's callback. *)
Theorem consumer_calls_are_genuine (ins : list input) (h : nat)
    (cb : callback) (j : value) :
  let s := final (run ins init) in
  (h, cb, j) ∈ all_dispatches (trace s) →
  (∃ u, bindings s !! h = Some (u, Some cb)) ∧ ∃ p, JSON_parse p = Some j.
Proof.
  intros s. apply genuine_run. intros h' cb' j' Hin.
  by apply elem_of_nil in Hin.
Qed.

End ChannelInvariants.

(** ** More worked examples *)

Section MoreExamples.

Local Abbreviation run_sample :=
  (UseWs.run sample_parse sample_accepts sample_returns).
Local Abbreviation step_sample :=
  (UseWs.step sample_parse sample_accepts sample_returns).

Lemma at_most_one_live_witness :
  cleanup (final (run_sample
             [Render (Some "ws://a") (Some 1); Render (Some "ws://b") (Some 1)]
             init)) = Some 1.
Proof.
  apply (at_most_one_live sample_parse sample_accepts sample_returns
           [Render (Some "ws://a") (Some 1); Render (Some "ws://b") (Some 1)] 1).
  reflexivity.
Defined.

Lemma nothing_after_unmount_witness :
  all_dispatches
    (trace (final (run_sample [WsMessage 0 "1"; Render (Some "ws://b") (Some 1)]
       (final (run_sample [Render (Some "ws://a") (Some 1); Unmount] init)))))
  = all_dispatches
      (trace (final (run_sample [Render (Some "ws://a") (Some 1); Unmount]
                       init))).
Proof.
  apply (nothing_after_unmount sample_parse sample_accepts sample_returns
           [Render (Some "ws://a") (Some 1); Unmount]
           [WsMessage 0 "1"; Render (Some "ws://b") (Some 1)]).
  reflexivity.
Defined.

Lemma transport_never_reconnects_witness :
  opens (trace (final (run_sample [WsOpen 0; WsError 0; WsClose 0]
           (final (run_sample [Render (Some "ws://a") (Some 1)] init)))))
  = opens (trace (final (run_sample [Render (Some "ws://a") (Some 1)] init))).
Proof.
  apply (transport_never_reconnects sample_parse sample_accepts sample_returns
           [WsOpen 0; WsError 0; WsClose 0]).
  reflexivity.
Defined.

Lemma consumer_change_reconnects_witness :
  step_sample (Render (Some "ws://a") (Some 1))
    (final (run_sample [Render (Some "ws://a") (Some 1)] init))
  = Normal tt (final (run_sample [Render (Some "ws://a") (Some 1)] init)).
Proof.
  apply (consumer_change_reconnects sample_parse sample_accepts sample_returns
           [Render (Some "ws://a") (Some 1)] "ws://a" (Some 1) (Some 2));
    [reflexivity | reflexivity | reflexivity | discriminate].
Defined.

Lemma frames_without_consumer_only_log_witness :
  run_sample (WsMessage 0 <$> ["1"; "{oops"])
    (final (run_sample [Render (Some "ws://a") None] init))
  = Normal tt
      {| subs := subs (final (run_sample [Render (Some "ws://a") None] init));
         wsRef := Some 0; cleanup := Some 0;
         react := Mounted (Some "ws://a") None;
         trace := [NetOpen 0 "ws://a"] ++ [ConsoleError "ws parse"] |}.
Proof.
  apply (frames_without_consumer_only_log sample_parse sample_accepts
           sample_returns 0 ["1"; "{oops"]
           (final (run_sample [Render (Some "ws://a") None] init))).
  - eexists. reflexivity.
  - intros sub cb Hsub Hcb. vm_compute in Hsub. injection Hsub as <-.
    discriminate Hcb.
Defined.

Lemma consumer_calls_are_genuine_witness :
  ∃ p, sample_parse p = Some (VNum 1).
Proof.
  apply (consumer_calls_are_genuine sample_parse sample_accepts sample_returns
           [Render (Some "ws://a") (Some 1); WsMessage 0 "1"] 0 1 (VNum 1)).
  vm_compute. apply list_elem_of_here.
Defined.

Lemma teardown_closes_witness :
  closed 0 (final (step_sample Unmount
              (final (run_sample [Render (Some "ws://a") (Some 1)] init)))).
Proof.
  destruct (teardown_closes sample_parse sample_accepts sample_returns
              [Render (Some "ws://a") (Some 1)] 0 None None) as [H _];
    [reflexivity | exact H].
Defined.

(** The url becomes empty: the socket is closed and [wsRef] still points at
    it. *)
Example stale_wsRef :
  let s := final (run_sample
             [Render (Some "ws://a") (Some 1); Render (Some "") (Some 1)] init) in
  wsRef s = Some 0 ∧ alive_map s = [false] ∧ cleanup s = None.
Proof. by vm_compute. Qed.

End MoreExamples.
